(** * Regression metrics of the automated-ML tutorial notebook

    Source: [tutorials/regression-part2-automated-ml.ipynb], the two
    metric cells that close the notebook:

<<
    rmse = sqrt(mean_squared_error(y_actual, y_predict))
>>
    and
<<
    sum_actuals = sum_errors = 0

    for actual_val, predict_val in zip(y_actual, y_predict):
        abs_error = actual_val - predict_val
        if abs_error < 0:
            abs_error = abs_error * -1

        sum_errors = sum_errors + abs_error
        sum_actuals = sum_actuals + actual_val

    mean_abs_percent_error = sum_errors / sum_actuals
    print("Model MAPE:")
    print(mean_abs_percent_error)
    print()
    print("Model Accuracy:")
    print(1 - mean_abs_percent_error)
>>

    The MAPE cell is written once over an interface of the arithmetic it
    uses, with three instances: the doubles of IEEE 754 binary64, which
    Python floats are and on which the cell runs as in Python; the
    rationals [Q], on which it runs exactly; and the reals [R], exact
    arithmetic, on which the properties that do not depend on rounding are
    proved.  What depends on rounding, or on the predicted values being
    Python floats or the elements of an [ndarray], is stated on doubles.
    An operation that raises in Python returns [Raise] here. *)

From Stdlib Require Import ZArith QArith Reals Qreals Lra Lia List Arith.
From Stdlib Require Strings.String Floats Uint63.
Import ListNotations.

Local Close Scope Q_scope.
Local Open Scope R_scope.

(** ** Exceptions and results *)

(** The exceptions the two cells can end with.  [InvalidInput] is the
    [ValueError] of argument validation, [ZeroDivisionError] the Python
    exception of [/] on a zero divisor (a subclass of [ArithmeticError]),
    [MathDomainError] the [ValueError] of [math.sqrt] on a negative
    argument. *)
Inductive exn : Set :=
| InvalidInput
| ZeroDivisionError
| MathDomainError.

Inductive result (A : Type) : Type :=
| Ok (a : A)
| Raise (e : exn).

Arguments Ok {A} a.
Arguments Raise {A} e.

Definition bind {A B : Type} (m : result A) (k : A -> result B) : result B :=
  match m with
  | Ok a => k a
  | Raise e => Raise e
  end.

Notation "x <- m ;; k" := (bind m (fun x => k))
  (at level 61, m at next level, right associativity).

Definition result_map {A B : Type} (f : A -> B) (m : result A) : result B :=
  x <- m ;; Ok (f x).

Definition returns {A : Type} (m : result A) : Prop :=
  exists a, m = Ok a.

(** ** The Python operations the cells use *)

Module Py.

(** The arithmetic of Python numbers the MAPE cell uses: integer literals,
    [+], [-], [*], the quotient of [/] by a non-zero divisor, [<] and the
    test of a divisor against zero. *)
Class Number (T : Type) : Type := {
  of_Z : Z -> T;
  add : T -> T -> T;
  sub : T -> T -> T;
  mul : T -> T -> T;
  quot : T -> T -> T;
  ltb : T -> T -> bool;
  is_zero : T -> bool
}.

(** [zip] stops at the end of the shorter sequence. *)
Fixpoint zip {A B : Type} (xs : list A) (ys : list B) : list (A * B) :=
  match xs, ys with
  | x :: xs', y :: ys' => (x, y) :: zip xs' ys'
  | _, _ => []
  end.

(** [a / b] on two Python numbers: raises on a zero divisor.  The division
    of a [numpy.float64] is [Binary64.truediv]. *)
Definition truediv {T : Type} `{Number T} (a b : T) : result T :=
  if is_zero b then Raise ZeroDivisionError else Ok (quot a b).

(** [math.sqrt]. *)
Definition sqrt (x : R) : result R :=
  if Rlt_dec x 0 then Raise MathDomainError else Ok (R_sqrt.sqrt x).

(** What [print] writes: a text, the value of a number, or the empty line
    of [print()]. *)
Inductive line (T : Type) : Type :=
| Text (s : String.string)
| Value (x : T)
| Blank.

Arguments Text {T} s.
Arguments Value {T} x.
Arguments Blank {T}.

End Py.

(** Exact numbers: the rationals. *)
#[export] Instance rational : Py.Number Q := {|
  Py.of_Z := inject_Z;
  Py.add := Qplus;
  Py.sub := Qminus;
  Py.mul := Qmult;
  Py.quot := Qdiv;
  Py.ltb := fun a b => negb (Qle_bool b a);
  Py.is_zero := fun a => Qeq_bool a (inject_Z 0)
|}.

(** Exact arithmetic: the reals, with no rounding, overflow or
    underflow. *)
#[export] Instance real : Py.Number R := {|
  Py.of_Z := IZR;
  Py.add := Rplus;
  Py.sub := Rminus;
  Py.mul := Rmult;
  Py.quot := Rdiv;
  Py.ltb := fun a b => if Rlt_dec a b then true else false;
  Py.is_zero := fun a => if Req_dec_T a 0 then true else false
|}.

(** The two captions of the MAPE cell. *)
Module Caption.
Import Strings.String.
Local Open Scope string_scope.

Definition model_mape : string := "Model MAPE:".
Definition model_accuracy : string := "Model Accuracy:".
End Caption.

(** ** The library call of the RMSE cell *)

Module sklearn.

Definition sum (l : list R) : R := fold_right Rplus 0 l.

Definition average (l : list R) : R := sum l / INR (length l).

(** Modelled from the spec: the body of [mean_squared_error], which the
    notebook imports from [sklearn.metrics] and only calls.  The notebook
    describes it as taking two arrays of values and calculating the average
    squared error between them; the spec gives RMSE as the mean of squared
    per-pair differences, under the preconditions
    [len(actual) == len(predicted)] and length at least 1, whose violation
    fails with InvalidInput.  The library function does validate its two
    arguments so: it raises [ValueError] on inconsistent numbers of samples
    and on an array with no sample. *)
Definition mean_squared_error (y_true y_pred : list R) : result R :=
  if negb (length y_true =? length y_pred)%nat then Raise InvalidInput
  else if (length y_true =? 0)%nat then Raise InvalidInput
  else Ok (average (map (fun tp => (fst tp - snd tp) ^ 2)
                        (Py.zip y_true y_pred))).

End sklearn.

(** ** The RMSE cell *)

Definition rmse (y_actual y_predict : list R) : result R :=
  mse <- sklearn.mean_squared_error y_actual y_predict ;;
  Py.sqrt mse.

(** ** The MAPE cell *)

(** The two accumulators of the loop. *)
Record mape_vars (T : Type) : Type := {
  sum_actuals : T;
  sum_errors : T
}.

Arguments sum_actuals {T} _.
Arguments sum_errors {T} _.

Section MapeCell.

Context {T : Type} `{Py.Number T}.

(** [sum_actuals = sum_errors = 0] *)
Definition mape_init : mape_vars T :=
  {| sum_actuals := Py.of_Z 0; sum_errors := Py.of_Z 0 |}.

(** The first three lines of the loop body: the difference, negated when it
    is below zero. *)
Definition abs_error (actual_val predict_val : T) : T :=
  let abs_error := Py.sub actual_val predict_val in
  if Py.ltb abs_error (Py.of_Z 0)
  then Py.mul abs_error (Py.of_Z (-1))
  else abs_error.

(** One iteration of the loop. *)
Definition mape_body (st : mape_vars T) (pair : T * T) : mape_vars T :=
  let (actual_val, predict_val) := pair in
  let abs_error := abs_error actual_val predict_val in
  {| sum_actuals := Py.add (sum_actuals st) actual_val;
     sum_errors := Py.add (sum_errors st) abs_error |}.

(** The [for] loop over [zip(y_actual, y_predict)]. *)
Definition mape_loop (y_actual y_predict : list T) : mape_vars T :=
  fold_left mape_body (Py.zip y_actual y_predict) mape_init.

(** [mean_abs_percent_error = sum_errors / sum_actuals] *)
Definition mean_abs_percent_error (y_actual y_predict : list T) : result T :=
  let st := mape_loop y_actual y_predict in
  Py.truediv (sum_errors st) (sum_actuals st).

(** The whole cell: what it prints, when the division does not raise. *)
Definition mape_cell (y_actual y_predict : list T)
  : result (list (Py.line T)) :=
  mean_abs_percent_error <- mean_abs_percent_error y_actual y_predict ;;
  Ok [ Py.Text Caption.model_mape;
       Py.Value mean_abs_percent_error;
       Py.Blank;
       Py.Text Caption.model_accuracy;
       Py.Value (Py.sub (Py.of_Z 1) mean_abs_percent_error) ].

(** The numbers a cell printed, in order. *)
Definition numbers (out : list (Py.line T)) : list T :=
  flat_map (fun l => match l with Py.Value x => [x] | _ => [] end) out.

End MapeCell.

(** ** The evaluator: both cells, in notebook order *)

Record MetricResult : Type := {
  mr_rmse : R;
  mr_mape : R;
  mr_accuracy : R
}.

(** The metric result holds the value of [rmse] and the two numbers the MAPE
    cell prints: [mean_abs_percent_error] and [1 - mean_abs_percent_error]. *)
Definition evaluate (actual predicted : list R) : result MetricResult :=
  rmse <- rmse actual predicted ;;
  mean_abs_percent_error <- mean_abs_percent_error actual predicted ;;
  Ok {| mr_rmse := rmse;
        mr_mape := mean_abs_percent_error;
        mr_accuracy := 1 - mean_abs_percent_error |}.

(** ** The two metric cells on doubles

    Python floats and the elements of a float64 [ndarray] are IEEE 754
    binary64 numbers: here the primitive floats, whose operations round as
    the hardware does. *)

(** [float(z)] of a Python int below [2^63] in absolute value; the cells
    only convert the literals [0], [1], [-1] and the length of a list. *)
Definition float_of_Z (z : Z) : PrimFloat.float :=
  match z with
  | Z0 => PrimFloat.zero
  | Zpos _ => PrimFloat.of_uint63 (Uint63.of_Z z)
  | Zneg p => PrimFloat.opp (PrimFloat.of_uint63 (Uint63.of_Z (Zpos p)))
  end.

(** Python floats: [/] raises on a divisor equal to zero, [+0.0] or
    [-0.0]; the other operations raise nothing. *)
#[export] Instance binary64 : Py.Number PrimFloat.float := {|
  Py.of_Z := float_of_Z;
  Py.add := PrimFloat.add;
  Py.sub := PrimFloat.sub;
  Py.mul := PrimFloat.mul;
  Py.quot := PrimFloat.div;
  Py.ltb := PrimFloat.ltb;
  Py.is_zero := fun a => PrimFloat.eqb a PrimFloat.zero
|}.

Module Binary64.

Import PrimFloat.
Local Open Scope float_scope.

(** The type of a scalar of the MAPE cell: a Python number, or the
    [numpy.float64] of an element of an [ndarray].  An operation with a
    [numpy.float64] operand gives a [numpy.float64]. *)
Inductive scalar_type : Set :=
| python_number
| numpy_float64.

(** [a / b] where [a] has the given type and [b] is a Python number:
    numpy's division warns on a zero divisor and raises nothing. *)
Definition truediv (t : scalar_type) (a b : float) : result float :=
  match t with
  | python_number => Py.truediv a b
  | numpy_float64 => Ok (a / b)
  end.

(** The type of [sum_errors] after the loop: the int [0] it started as when
    the body never ran, else the type of [abs_error], which is that of the
    predicted values. *)
Definition sum_errors_type (predicted : scalar_type)
  (pairs : list (float * float)) : scalar_type :=
  match pairs with
  | [] => python_number
  | _ :: _ => predicted
  end.

(** The MAPE cell on a list [y_actual] of Python floats and predicted
    values of the given type: [numpy_float64] in the notebook, where
    [y_predict] is the [ndarray] that [fitted_model.predict] returns. *)
Definition mean_abs_percent_error (predicted : scalar_type)
  (y_actual y_predict : list float) : result float :=
  let st := mape_loop y_actual y_predict in
  truediv (sum_errors_type predicted (Py.zip y_actual y_predict))
    (sum_errors st) (sum_actuals st).

(** Modelled from the spec: [mean_squared_error] of [sklearn.metrics] on
    doubles, the mean of the squared per-pair differences accumulated in
    double precision, under the preconditions of equal lengths and length
    at least 1, whose violation fails with InvalidInput. *)
Definition mean_squared_error (y_true y_pred : list float) : result float :=
  if negb (length y_true =? length y_pred)%nat then Raise InvalidInput
  else if (length y_true =? 0)%nat then Raise InvalidInput
  else
    let squares :=
      map (fun tp => (fst tp - snd tp) * (fst tp - snd tp))
          (Py.zip y_true y_pred) in
    Ok (fold_left add squares 0
        / float_of_Z (Z.of_nat (length squares))).

(** [math.sqrt]: raises on an argument below zero. *)
Definition sqrt (x : float) : result float :=
  if x <? 0 then Raise MathDomainError else Ok (PrimFloat.sqrt x).

Definition rmse (y_actual y_predict : list float) : result float :=
  mse <- mean_squared_error y_actual y_predict ;;
  sqrt mse.

Record MetricResult : Type := {
  mr_rmse : float;
  mr_mape : float;
  mr_accuracy : float
}.

(** Both cells, in notebook order. *)
Definition evaluate (predicted_type : scalar_type)
  (actual predicted : list float) : result MetricResult :=
  rmse <- rmse actual predicted ;;
  mean_abs_percent_error <-
    mean_abs_percent_error predicted_type actual predicted ;;
  Ok {| mr_rmse := rmse;
        mr_mape := mean_abs_percent_error;
        mr_accuracy := 1 - mean_abs_percent_error |}.

(** Neither an infinity nor a NaN. *)
Definition finite (x : float) : bool :=
  match FloatOps.Prim2SF x with
  | SpecFloat.S754_zero _ | SpecFloat.S754_finite _ _ _ => true
  | SpecFloat.S754_infinity _ | SpecFloat.S754_nan => false
  end.

End Binary64.

(** The sign bit of a specified double is clear, or it is a NaN. *)
Definition sf_unsigned (x : SpecFloat.spec_float) : bool :=
  match x with
  | SpecFloat.S754_nan => true
  | SpecFloat.S754_zero s | SpecFloat.S754_infinity s
  | SpecFloat.S754_finite s _ _ => negb s
  end.

(** ** The metrics in the words of the specification

    Sums over the pairs, taken by index: pair [i] is
    [(actual[i], predicted[i])]. *)

Module Spec.

(** [f 0 + ... + f (n - 1)] *)
Fixpoint big_sum (n : nat) (f : nat -> R) : R :=
  match n with
  | O => 0
  | S k => big_sum k f + f k
  end.

Definition item (l : list R) (i : nat) : R := nth i l 0.

(** Sum of the absolute per-pair differences. *)
Definition sum_abs_diff (actual predicted : list R) : R :=
  big_sum (length actual) (fun i => Rabs (item actual i - item predicted i)).

(** Sum of the actual values. *)
Definition sum_actual (actual : list R) : R :=
  big_sum (length actual) (item actual).

(** MAPE, ratio-of-sums form. *)
Definition ratio_of_sums (actual predicted : list R) : R :=
  sum_abs_diff actual predicted / sum_actual actual.

(** The textbook MAPE: mean of the per-pair percentage errors. *)
Definition mean_of_ratios (actual predicted : list R) : R :=
  big_sum (length actual)
    (fun i => Rabs (item actual i - item predicted i) / item actual i)
  / INR (length actual).

(** Mean of the squared per-pair differences. *)
Definition mean_sq_diff (actual predicted : list R) : R :=
  big_sum (length actual) (fun i => (item actual i - item predicted i) ^ 2)
  / INR (length actual).

Definition root_mean_sq (actual predicted : list R) : R :=
  R_sqrt.sqrt (mean_sq_diff actual predicted).

(** The two sequences are identical element-wise. *)
Definition identical (actual predicted : list R) : Prop :=
  forall i, (i < length actual)%nat -> item actual i = item predicted i.

(** The first [min m n] elements, for sequences of lengths [m] and [n]. *)
Definition common (actual predicted : list R) : nat :=
  Nat.min (length actual) (length predicted).

End Spec.

(** The MAPE cell with the absolute value in place of the branch. *)
Definition mape_body_abs (st : mape_vars R) (pair : R * R) : mape_vars R :=
  {| sum_actuals := sum_actuals st + fst pair;
     sum_errors := sum_errors st + Rabs (fst pair - snd pair) |}.

Definition mean_abs_percent_error_abs (y_actual y_predict : list R)
  : result R :=
  let st := fold_left mape_body_abs (Py.zip y_actual y_predict) mape_init in
  Py.truediv (sum_errors st) (sum_actuals st).

(** ** The run-history cell

<<
    children = list(local_run.get_children())
    metricslist = {}
    for run in children:
        properties = run.get_properties()
        metrics = {k: v for k, v in run.get_metrics().items()
                   if isinstance(v, float)}
        metricslist[int(properties['iteration'])] = metrics
>>

    A Python [dict] keeps its keys in insertion order and holds each key
    once: it is a list of pairs whose keys are pairwise distinct. *)

Module Dict.

Section Dict.

Context {K V : Type}.
Variable key_eq_dec : forall x y : K, {x = y} + {x <> y}.

Definition keys (d : list (K * V)) : list K := map fst d.

(** [d[k]]; [None] stands for [KeyError]. *)
Fixpoint get (d : list (K * V)) (k : K) : option V :=
  match d with
  | [] => None
  | (k', v) :: d' => if key_eq_dec k k' then Some v else get d' k
  end.

(** [d[k] = v]: a key already present keeps its place and takes the new
    value, a new key goes to the end. *)
Fixpoint set (d : list (K * V)) (k : K) (v : V) : list (K * V) :=
  match d with
  | [] => [(k, v)]
  | (k', v') :: d' =>
      if key_eq_dec k k' then (k', v) :: d' else (k', v') :: set d' k v
  end.

End Dict.

End Dict.

(** The key the cell reads in the properties of a run. *)
Module Key.
Import Strings.String.
Local Open Scope string_scope.

Definition iteration : string := "iteration".
End Key.

(** A child run, as far as the cell reads it: what [get_properties()] and
    [get_metrics()] return. *)
Record run (value : Type) : Type := {
  get_properties : list (String.string * String.string);
  get_metrics : list (String.string * value)
}.

Arguments get_properties {value} _.
Arguments get_metrics {value} _.

(** The two exceptions of [int(properties['iteration'])]. *)
Inductive run_error : Type :=
| KeyError (key : String.string)
| ValueError (text : String.string).

Section RunHistory.

(** The values of the metrics, the test [isinstance(v, float)] and the
    builtin [int] on a string ([None] where it raises [ValueError]). *)
Context {value : Type}.
Variable isinstance_float : value -> bool.
Variable int : String.string -> option Z.

(** [{k: v for k, v in items if isinstance(v, float)}] *)
Definition float_metrics (items : list (String.string * value))
  : list (String.string * value) :=
  fold_left
    (fun metrics kv =>
       if isinstance_float (snd kv)
       then Dict.set String.string_dec metrics (fst kv) (snd kv)
       else metrics)
    items [].

(** [int(properties['iteration'])] *)
Definition iteration_of (properties : list (String.string * String.string))
  : run_error + Z :=
  match Dict.get String.string_dec properties Key.iteration with
  | None => inl (KeyError Key.iteration)
  | Some text =>
      match int text with
      | None => inl (ValueError text)
      | Some i => inr i
      end
  end.

(** The [for] loop, from a given [metricslist]. *)
Fixpoint metricslist_loop (children : list (run value))
  (metricslist : list (Z * list (String.string * value)))
  : run_error + list (Z * list (String.string * value)) :=
  match children with
  | [] => inr metricslist
  | run :: rest =>
      let properties := get_properties run in
      let metrics := float_metrics (get_metrics run) in
      match iteration_of properties with
      | inl e => inl e
      | inr i => metricslist_loop rest (Dict.set Z.eq_dec metricslist i metrics)
      end
  end.

(** [metricslist = {}] and the loop. *)
Definition metricslist (children : list (run value))
  : run_error + list (Z * list (String.string * value)) :=
  metricslist_loop children [].

End RunHistory.

(** Sample child runs, to run the cell on. *)
Module Sample.
Import Strings.String Strings.Ascii.
Local Open Scope string_scope.

(** A metric is a float or a table kept as text. *)
Inductive metric : Type :=
| Float (x : Q)
| Table (text : string).

Definition is_float (v : metric) : bool :=
  match v with
  | Float _ => true
  | Table _ => false
  end.

(** [int] on the decimal digits of a natural number. *)
Fixpoint digits (text : string) (acc : Z) : option Z :=
  match text with
  | EmptyString => Some acc
  | String c rest =>
      let n := nat_of_ascii c in
      if ((48 <=? n) && (n <=? 57))%nat
      then digits rest (10 * acc + Z.of_nat (n - 48))%Z
      else None
  end.

Definition decimal (text : string) : option Z :=
  match text with
  | EmptyString => None
  | _ => digits text 0%Z
  end.

Definition run_0 : run metric := {|
  get_properties := [("runTemplate", "automl_child"); ("iteration", "0")];
  get_metrics := [("spearman_correlation", Float (9 # 10));
                  ("residuals", Table "histogram");
                  ("root_mean_squared_error", Float (7 # 2))]
|}.

Definition run_1 : run metric := {|
  get_properties := [("iteration", "1")];
  get_metrics := [("spearman_correlation", Float (8 # 10))]
|}.

(** A second run of iteration 0. *)
Definition run_0_again : run metric := {|
  get_properties := [("iteration", "0")];
  get_metrics := [("spearman_correlation", Float (95 # 100))]
|}.

(** A run with no iteration property. *)
Definition run_unnumbered : run metric := {|
  get_properties := [("runTemplate", "automl_child")];
  get_metrics := [("spearman_correlation", Float (1 # 2))]
|}.

End Sample.

(** ** The chart cell

<<
    distance_vals = [x[4] for x in x_test.values]
    y_actual = y_test.values.flatten().tolist()

    ax1.scatter(distance_vals[:100], y_predict[:100], ...)
    ax1.scatter(distance_vals[:100], y_actual[:100], ...)
>> *)

Section Chart.

Context {A : Type}.

(** [[x[4] for x in rows]]; [None] stands for the [IndexError] of [x[4]] on
    a row of fewer than five columns. *)
Fixpoint distance_vals (rows : list (list A)) : option (list A) :=
  match rows with
  | [] => Some []
  | x :: rest =>
      match nth_error x 4 with
      | None => None
      | Some d =>
          match distance_vals rest with
          | None => None
          | Some ds => Some (d :: ds)
          end
      end
  end.

(** [s[:100]] *)
Definition first_100 {B : Type} (s : list B) : list B := firstn 100 s.

(** The two point series of the first [scatter] call, and of the second
    with [y_actual] for [y]. *)
Definition scatter_series {B : Type} (rows : list (list A)) (y : list B)
  : option (list A * list B) :=
  match distance_vals rows with
  | None => None
  | Some distance_vals => Some (first_100 distance_vals, first_100 y)
  end.

End Chart.

(** * Properties *)

(** ** Index sums *)

Section BigSum.

Import Spec.

Lemma big_sum_ext (n : nat) (f g : nat -> R) :
  (forall i, (i < n)%nat -> f i = g i) -> big_sum n f = big_sum n g.
Proof.
  induction n as [|n IH]; intros E; simpl; [reflexivity|].
  rewrite IH by (intros i Hi; apply E; lia).
  rewrite (E n) by lia.
  reflexivity.
Qed.

Lemma big_sum_shift (n : nat) (f : nat -> R) :
  big_sum (S n) f = f O + big_sum n (fun i => f (S i)).
Proof.
  induction n as [|n IH].
  - simpl. lra.
  - change (big_sum (S (S n)) f) with (big_sum (S n) f + f (S n)).
    rewrite IH. simpl. lra.
Qed.

Lemma big_sum_nonneg (n : nat) (f : nat -> R) :
  (forall i, (i < n)%nat -> 0 <= f i) -> 0 <= big_sum n f.
Proof.
  induction n as [|n IH]; intros P; simpl; [lra|].
  assert (0 <= big_sum n f) by (apply IH; intros; apply P; lia).
  assert (0 <= f n) by (apply P; lia).
  lra.
Qed.

(** A sum of non-negative terms is zero exactly when every term is. *)
Lemma big_sum_zero_iff (n : nat) (f : nat -> R) :
  (forall i, (i < n)%nat -> 0 <= f i) ->
  big_sum n f = 0 <-> (forall i, (i < n)%nat -> f i = 0).
Proof.
  intros P. split.
  - induction n as [|n IH]; intros Z i Hi; [lia|].
    simpl in Z.
    assert (0 <= big_sum n f)
      by (apply big_sum_nonneg; intros; apply P; lia).
    assert (0 <= f n) by (apply P; lia).
    destruct (Nat.eq_dec i n) as [->|Hne]; [lra|].
    apply IH; [intros; apply P; lia | lra | lia].
  - intros Z. rewrite (big_sum_ext n f (fun _ => 0)) by exact Z.
    clear. induction n as [|n IH]; simpl; lra.
Qed.

End BigSum.

(** ** The loops, as sums over the zipped pairs *)

Section Loops.

Import Spec.

Lemma zip_length {A B : Type} (xs : list A) (ys : list B) :
  length (Py.zip xs ys) = Nat.min (length xs) (length ys).
Proof.
  revert ys. induction xs as [|x xs IH]; intros [|y ys]; simpl; auto.
Qed.

(** A list sum over the zipped pairs is the index sum over the common
    prefix. *)
Lemma sum_zip (f : R * R -> R) (xs ys : list R) :
  sklearn.sum (map f (Py.zip xs ys))
  = big_sum (Nat.min (length xs) (length ys))
      (fun i => f (item xs i, item ys i)).
Proof.
  revert ys. induction xs as [|x xs IH]; intros [|y ys];
    try reflexivity.
  cbn [Py.zip map length Nat.min sklearn.sum fold_right].
  rewrite big_sum_shift. f_equal. apply IH.
Qed.

(** The cell read on the reals. *)
Ltac on_reals :=
  cbn [Py.of_Z Py.add Py.sub Py.mul Py.quot Py.ltb Py.is_zero real] in *.

Lemma abs_error_real (actual_val predict_val : R) :
  abs_error actual_val predict_val
  = if Rlt_dec (actual_val - predict_val) 0
    then (actual_val - predict_val) * -1
    else actual_val - predict_val.
Proof.
  unfold abs_error. on_reals.
  destruct (Rlt_dec (actual_val - predict_val) 0); reflexivity.
Qed.

Lemma mape_body_real (st : mape_vars R) (actual_val predict_val : R) :
  mape_body st (actual_val, predict_val)
  = {| sum_actuals := sum_actuals st + actual_val;
       sum_errors := sum_errors st + abs_error actual_val predict_val |}.
Proof. reflexivity. Qed.

Lemma truediv_real (a b : R) :
  Py.truediv a b
  = if Req_dec_T b 0 then Raise ZeroDivisionError else Ok (a / b).
Proof.
  unfold Py.truediv. on_reals. destruct (Req_dec_T b 0); reflexivity.
Qed.

Lemma abs_error_Rabs (actual_val predict_val : R) :
  abs_error actual_val predict_val = Rabs (actual_val - predict_val).
Proof.
  rewrite abs_error_real.
  destruct (Rlt_dec (actual_val - predict_val) 0) as [N|N].
  - rewrite Rabs_left by exact N. lra.
  - rewrite Rabs_right by lra. reflexivity.
Qed.

(** The loop invariant: each accumulator is its initial value plus the sum
    of what the iterations so far added. *)
Lemma mape_loop_from (l : list (R * R)) (st : mape_vars R) :
  fold_left mape_body l st
  = {| sum_actuals := sum_actuals st + sklearn.sum (map fst l);
       sum_errors :=
         sum_errors st
         + sklearn.sum (map (fun ap => abs_error (fst ap) (snd ap)) l) |}.
Proof.
  revert st. induction l as [|[a p] l IH]; intros [sa se].
  - simpl. f_equal; lra.
  - cbn [fold_left]. rewrite IH, mape_body_real.
    unfold sklearn.sum. cbn [sum_actuals sum_errors map fst snd fold_right].
    f_equal; lra.
Qed.

Lemma mape_loop_abs_from (l : list (R * R)) (st : mape_vars R) :
  fold_left mape_body_abs l st = fold_left mape_body l st.
Proof.
  revert st. induction l as [|[a p] l IH]; intros st; [reflexivity|].
  cbn [fold_left]. rewrite IH. f_equal.
  rewrite mape_body_real, abs_error_Rabs. reflexivity.
Qed.

Lemma mape_loop_sum_actuals (y_actual y_predict : list R) :
  sum_actuals (mape_loop y_actual y_predict)
  = big_sum (common y_actual y_predict) (item y_actual).
Proof.
  unfold mape_loop. rewrite mape_loop_from. cbn [sum_actuals mape_init].
  rewrite sum_zip. cbn [fst]. unfold common.
  rewrite Rplus_0_l. reflexivity.
Qed.

Lemma mape_loop_sum_errors (y_actual y_predict : list R) :
  sum_errors (mape_loop y_actual y_predict)
  = big_sum (common y_actual y_predict)
      (fun i => Rabs (item y_actual i - item y_predict i)).
Proof.
  unfold mape_loop. rewrite mape_loop_from. cbn [sum_errors mape_init].
  rewrite sum_zip. cbn [fst snd]. unfold common.
  rewrite Rplus_0_l. apply big_sum_ext. intros i _.
  apply abs_error_Rabs.
Qed.

End Loops.

(** ** Running the MAPE cell: from rationals to reals *)

Section Exact.

Lemma Q2R_inject_Z (z : Z) : Q2R (inject_Z z) = IZR z.
Proof. unfold Q2R, inject_Z. simpl. lra. Qed.

Lemma zip_map {A B : Type} (f : A -> B) (xs ys : list A) :
  Py.zip (map f xs) (map f ys)
  = map (fun xy => (f (fst xy), f (snd xy))) (Py.zip xs ys).
Proof.
  revert ys. induction xs as [|x xs IH]; intros [|y ys]; simpl;
    try reflexivity.
  f_equal. apply IH.
Qed.

Lemma abs_error_exact (actual_val predict_val : Q) :
  abs_error (Q2R actual_val) (Q2R predict_val)
  = Q2R (abs_error actual_val predict_val).
Proof.
  rewrite abs_error_real. unfold abs_error.
  cbn [Py.of_Z Py.sub Py.mul Py.ltb rational].
  rewrite <- Q2R_minus.
  destruct (Qle_bool (inject_Z 0) (actual_val - predict_val)) eqn:E;
    cbn [negb].
  - apply Qle_bool_iff, Qle_Rle in E. rewrite Q2R_inject_Z in E.
    destruct (Rlt_dec (Q2R (actual_val - predict_val)) 0); [lra|reflexivity].
  - destruct (Rlt_dec (Q2R (actual_val - predict_val)) 0) as [N|N].
    + rewrite Q2R_mult, Q2R_inject_Z. reflexivity.
    + exfalso. assert (Q2R (inject_Z 0) <= Q2R (actual_val - predict_val)) as P
        by (rewrite Q2R_inject_Z; lra).
      apply Rle_Qle, Qle_bool_iff in P. congruence.
Qed.

Lemma mape_loop_exact_from (l : list (Q * Q)) (q : mape_vars Q)
  (r : mape_vars R) :
  Q2R (sum_actuals q) = sum_actuals r ->
  Q2R (sum_errors q) = sum_errors r ->
  let q' := fold_left mape_body l q in
  let r' :=
    fold_left mape_body
      (map (fun xy => (Q2R (fst xy), Q2R (snd xy))) l) r in
  Q2R (sum_actuals q') = sum_actuals r' /\ Q2R (sum_errors q') = sum_errors r'.
Proof.
  revert q r. induction l as [|[a p] l IH]; intros q r A E;
    [split; assumption|].
  cbn [fold_left map fst snd]. apply IH.
  - rewrite mape_body_real. cbn [sum_actuals mape_body Py.add rational].
    rewrite Q2R_plus, A. reflexivity.
  - rewrite mape_body_real. cbn [sum_errors mape_body Py.add rational].
    rewrite Q2R_plus, E, abs_error_exact. reflexivity.
Qed.

Lemma truediv_exact (a b : Q) :
  Py.truediv (Q2R a) (Q2R b) = result_map Q2R (Py.truediv a b).
Proof.
  rewrite truediv_real. unfold Py.truediv.
  cbn [Py.is_zero Py.quot rational].
  destruct (Qeq_bool b (inject_Z 0)) eqn:E.
  - apply Qeq_bool_iff, Qeq_eqR in E. rewrite Q2R_inject_Z in E.
    destruct (Req_dec_T (Q2R b) 0); [reflexivity | contradiction].
  - apply Qeq_bool_neq in E.
    destruct (Req_dec_T (Q2R b) 0) as [Z|_].
    + exfalso. apply E, eqR_Qeq. rewrite Q2R_inject_Z. exact Z.
    + cbn [result_map bind]. rewrite Q2R_div by exact E. reflexivity.
Qed.

(** What the cell computes on rationals, it computes on the reals they
    denote. *)
Lemma mean_abs_percent_error_exact (y_actual y_predict : list Q) :
  mean_abs_percent_error (map Q2R y_actual) (map Q2R y_predict)
  = result_map Q2R (mean_abs_percent_error y_actual y_predict).
Proof.
  unfold mean_abs_percent_error, mape_loop. rewrite zip_map.
  destruct (mape_loop_exact_from (Py.zip y_actual y_predict)
              mape_init mape_init) as [A E].
  - cbn [mape_init sum_actuals Py.of_Z rational real]. apply Q2R_inject_Z.
  - cbn [mape_init sum_errors Py.of_Z rational real]. apply Q2R_inject_Z.
  - rewrite <- A, <- E. apply truediv_exact.
Qed.

Local Open Scope Q_scope.

(** The cell run on the scenario of the specification, on sequences of
    lengths 3 and 2, on actual values that sum to zero, and on empty
    input. *)
Example run_scenario :
  mape_loop [10; 20; 30] [12; 18; 33]
  = {| sum_actuals := 60; sum_errors := 7 |}
  /\ mean_abs_percent_error [10; 20; 30] [12; 18; 33] = Ok (7 # 60)
  /\ numbers (match mape_cell [10; 20; 30] [12; 18; 33] with
              | Ok out => out
              | Raise _ => []
              end)
     = [7 # 60; 53 # 60].
Proof. repeat split; vm_compute; reflexivity. Qed.

Example run_lengths_3_2 :
  mean_abs_percent_error [10; 20; 30] [12; 18] = Ok (4 # 30).
Proof. vm_compute. reflexivity. Qed.

Example run_zero_sum :
  mean_abs_percent_error [0; 0; 0] [1; 2; 3] = Raise ZeroDivisionError.
Proof. vm_compute. reflexivity. Qed.

Example run_empty :
  mean_abs_percent_error ([] : list Q) [] = Raise ZeroDivisionError
  /\ mean_abs_percent_error [1; 2] ([] : list Q) = Raise ZeroDivisionError.
Proof. split; vm_compute; reflexivity. Qed.

End Exact.

(** ** The two cells on well-formed and ill-formed input *)

Section Cells.

Import Spec.

Variables actual predicted : list R.

Lemma common_same :
  length actual = length predicted ->
  common actual predicted = length actual.
Proof. unfold common. intros <-. apply Nat.min_id. Qed.

Lemma nonempty_length : actual <> [] -> (0 < length actual)%nat.
Proof. destruct actual; [congruence | simpl; lia]. Qed.

Lemma sum_sq_diff_nonneg (n : nat) :
  0 <= big_sum n (fun i => (item actual i - item predicted i) ^ 2).
Proof. apply big_sum_nonneg. intros i _. apply pow2_ge_0. Qed.

Lemma mean_sq_diff_nonneg : 0 <= mean_sq_diff actual predicted.
Proof.
  unfold mean_sq_diff.
  destruct (length actual) as [|n] eqn:E.
  - simpl. lra.
  - apply Rmult_le_pos; [apply sum_sq_diff_nonneg|].
    apply Rlt_le, Rinv_0_lt_compat, lt_0_INR. lia.
Qed.

(** The library call rejects sequences of different lengths and empty
    ones. *)
Lemma mean_squared_error_invalid :
  length actual <> length predicted \/ actual = [] \/ predicted = [] ->
  sklearn.mean_squared_error actual predicted = Raise InvalidInput.
Proof.
  intros H. unfold sklearn.mean_squared_error.
  destruct (Nat.eqb_spec (length actual) (length predicted)) as [E|E];
    [|reflexivity].
  cbn [negb].
  destruct (Nat.eqb_spec (length actual) 0) as [Z|Z]; [reflexivity|].
  exfalso. destruct H as [H|[H|H]].
  - contradiction.
  - subst actual. apply Z. reflexivity.
  - rewrite H in E. apply Z. exact E.
Qed.

Hypothesis same_length : length actual = length predicted.
Hypothesis nonempty : actual <> [].

Lemma mean_squared_error_ok :
  sklearn.mean_squared_error actual predicted
  = Ok (mean_sq_diff actual predicted).
Proof.
  unfold sklearn.mean_squared_error.
  rewrite <- same_length, Nat.eqb_refl. cbn [negb].
  destruct (Nat.eqb_spec (length actual) 0) as [Z|_].
  - pose proof (nonempty_length nonempty). lia.
  - unfold sklearn.average, mean_sq_diff.
    rewrite length_map, zip_length, sum_zip, <- same_length, Nat.min_id.
    reflexivity.
Qed.

Lemma rmse_ok : rmse actual predicted = Ok (root_mean_sq actual predicted).
Proof.
  unfold rmse. rewrite mean_squared_error_ok. cbn [bind].
  unfold Py.sqrt.
  destruct (Rlt_dec (mean_sq_diff actual predicted) 0) as [N|_];
    [|reflexivity].
  pose proof mean_sq_diff_nonneg. lra.
Qed.

Lemma mape_loop_same :
  mape_loop actual predicted
  = {| sum_actuals := sum_actual actual;
       sum_errors := sum_abs_diff actual predicted |}.
Proof.
  pose proof (mape_loop_sum_actuals actual predicted) as A.
  pose proof (mape_loop_sum_errors actual predicted) as E.
  rewrite common_same in A, E by exact same_length.
  destruct (mape_loop actual predicted) as [sa se].
  cbn [sum_actuals sum_errors] in A, E. subst. reflexivity.
Qed.

Lemma mape_ok :
  sum_actual actual <> 0 ->
  mean_abs_percent_error actual predicted
  = Ok (ratio_of_sums actual predicted).
Proof.
  intros NZ. unfold mean_abs_percent_error. rewrite mape_loop_same.
  cbn [sum_actuals sum_errors]. rewrite truediv_real.
  destruct (Req_dec_T (sum_actual actual) 0); [contradiction|reflexivity].
Qed.

Lemma mape_zero_division :
  sum_actual actual = 0 ->
  mean_abs_percent_error actual predicted = Raise ZeroDivisionError.
Proof.
  intros Z. unfold mean_abs_percent_error. rewrite mape_loop_same.
  cbn [sum_actuals sum_errors]. rewrite truediv_real.
  destruct (Req_dec_T (sum_actual actual) 0); [reflexivity|contradiction].
Qed.

Lemma evaluate_ok :
  sum_actual actual <> 0 ->
  evaluate actual predicted
  = Ok {| mr_rmse := root_mean_sq actual predicted;
          mr_mape := ratio_of_sums actual predicted;
          mr_accuracy := 1 - ratio_of_sums actual predicted |}.
Proof.
  intros NZ. unfold evaluate.
  rewrite rmse_ok. cbn [bind]. rewrite (mape_ok NZ). reflexivity.
Qed.

Lemma evaluate_zero_division :
  sum_actual actual = 0 ->
  evaluate actual predicted = Raise ZeroDivisionError.
Proof.
  intros Z. unfold evaluate.
  rewrite rmse_ok. cbn [bind]. rewrite (mape_zero_division Z). reflexivity.
Qed.

(** When the evaluator returns, it returns the three specified values. *)
Lemma evaluate_inv (res : MetricResult) :
  evaluate actual predicted = Ok res ->
  sum_actual actual <> 0
  /\ res = {| mr_rmse := root_mean_sq actual predicted;
              mr_mape := ratio_of_sums actual predicted;
              mr_accuracy := 1 - ratio_of_sums actual predicted |}.
Proof.
  intros E. destruct (Req_dec_T (sum_actual actual) 0) as [Z|NZ].
  - rewrite (evaluate_zero_division Z) in E. discriminate.
  - rewrite (evaluate_ok NZ) in E. split; [exact NZ | congruence].
Qed.

(** *** Zero error *)

Lemma sq_diff_zero_iff :
  big_sum (length actual) (fun i => (item actual i - item predicted i) ^ 2)
  = 0
  <-> identical actual predicted.
Proof.
  rewrite big_sum_zero_iff by (intros; apply pow2_ge_0).
  unfold identical. split; intros H i Hi; specialize (H i Hi).
  - assert (item actual i - item predicted i = 0) by nra. lra.
  - rewrite H. ring.
Qed.

Lemma abs_diff_zero_iff :
  sum_abs_diff actual predicted = 0 <-> identical actual predicted.
Proof.
  unfold sum_abs_diff.
  rewrite big_sum_zero_iff by (intros; apply Rabs_pos).
  unfold identical. split; intros H i Hi; specialize (H i Hi).
  - destruct (Req_dec_T (item actual i - item predicted i) 0) as [Z|NZ];
      [lra|].
    apply Rabs_no_R0 in NZ. contradiction.
  - rewrite H, Rminus_diag. apply Rabs_R0.
Qed.

Lemma spec_rmse_zero_iff :
  root_mean_sq actual predicted = 0 <-> identical actual predicted.
Proof.
  rewrite <- sq_diff_zero_iff. unfold root_mean_sq, mean_sq_diff.
  assert (0 < INR (length actual)) as P
    by (apply lt_0_INR, nonempty_length, nonempty).
  pose proof (sum_sq_diff_nonneg (length actual)) as S.
  pose proof mean_sq_diff_nonneg as M. unfold mean_sq_diff in M.
  split; intros H.
  - apply sqrt_eq_0 in H; [|exact M].
    apply (Rmult_eq_compat_r (INR (length actual))) in H.
    unfold Rdiv in H. rewrite Rmult_assoc, Rinv_l, Rmult_1_r in H by lra.
    lra.
  - rewrite H. unfold Rdiv. rewrite Rmult_0_l. apply sqrt_0.
Qed.

Lemma spec_mape_zero_iff :
  sum_actual actual <> 0 ->
  ratio_of_sums actual predicted = 0 <-> identical actual predicted.
Proof.
  intros NZ. rewrite <- abs_diff_zero_iff. unfold ratio_of_sums.
  split; intros H.
  - apply (Rmult_eq_compat_r (sum_actual actual)) in H.
    unfold Rdiv in H. rewrite Rmult_assoc, Rinv_l, Rmult_1_r in H by exact NZ.
    lra.
  - rewrite H. unfold Rdiv. apply Rmult_0_l.
Qed.

(** Element-wise identity of sequences of one length is equality. *)
Lemma identical_eq : identical actual predicted <-> actual = predicted.
Proof.
  split.
  - intros H. apply (nth_ext _ _ 0 0 same_length). exact H.
  - intros <- i _. reflexivity.
Qed.

End Cells.

(** ** Sequences of different lengths: the common prefix *)

Section Prefix.

Import Spec.

Variables actual predicted : list R.
Variable k : nat.
Hypothesis k_actual : (k <= length actual)%nat.

Lemma item_firstn (l : list R) (i : nat) :
  (i < k)%nat -> item (firstn k l) i = item l i.
Proof.
  intros Hi. unfold item. rewrite nth_firstn.
  destruct (Nat.ltb_spec i k); [reflexivity | lia].
Qed.

Lemma length_prefix : length (firstn k actual) = k.
Proof. rewrite length_firstn. lia. Qed.

Lemma sum_actual_prefix :
  sum_actual (firstn k actual) = big_sum k (item actual).
Proof.
  unfold sum_actual. rewrite length_prefix.
  apply big_sum_ext. intros i Hi. apply item_firstn, Hi.
Qed.

Lemma sum_abs_diff_prefix :
  sum_abs_diff (firstn k actual) (firstn k predicted)
  = big_sum k (fun i => Rabs (item actual i - item predicted i)).
Proof.
  unfold sum_abs_diff. rewrite length_prefix.
  apply big_sum_ext. intros i Hi. rewrite !item_firstn by exact Hi.
  reflexivity.
Qed.

End Prefix.

Lemma common_le_actual (actual predicted : list R) :
  (Spec.common actual predicted <= length actual)%nat.
Proof. unfold Spec.common. lia. Qed.

(** The loop sees the common prefix only. *)
Lemma mape_loop_prefix (actual predicted : list R) :
  mape_loop actual predicted
  = {| sum_actuals :=
         Spec.sum_actual (firstn (Spec.common actual predicted) actual);
       sum_errors :=
         Spec.sum_abs_diff
           (firstn (Spec.common actual predicted) actual)
           (firstn (Spec.common actual predicted) predicted) |}.
Proof.
  pose proof (common_le_actual actual predicted) as K.
  rewrite (sum_actual_prefix _ _ K), (sum_abs_diff_prefix _ _ _ K).
  pose proof (mape_loop_sum_actuals actual predicted) as A.
  pose proof (mape_loop_sum_errors actual predicted) as E.
  destruct (mape_loop actual predicted) as [sa se].
  cbn [sum_actuals sum_errors] in A, E. subst. reflexivity.
Qed.

Lemma mape_prefix_ok (actual predicted : list R) :
  Spec.sum_actual (firstn (Spec.common actual predicted) actual) <> 0 ->
  mean_abs_percent_error actual predicted
  = Ok (Spec.ratio_of_sums
          (firstn (Spec.common actual predicted) actual)
          (firstn (Spec.common actual predicted) predicted)).
Proof.
  intros NZ. unfold mean_abs_percent_error. rewrite mape_loop_prefix.
  cbn [sum_actuals sum_errors]. rewrite truediv_real.
  destruct (Req_dec_T _ 0); [contradiction | reflexivity].
Qed.

(** ** Doubles *)

Section Doubles.

Import PrimFloat FloatOps FloatAxioms SpecFloat.
Local Open Scope float_scope.

(** *** Signs: what rounding keeps *)

(** Rounding gives the result the sign it is asked for. *)
Lemma binary_round_aux_sign (prec emax : Z) (sx : bool) (mx ex : Z)
  (lx : location) :
  match binary_round_aux prec emax sx mx ex lx with
  | S754_nan => True
  | S754_zero s | S754_infinity s | S754_finite s _ _ => s = sx
  end.
Proof.
  unfold binary_round_aux.
  destruct (shr_fexp prec emax mx ex lx) as [mrs' e'].
  destruct (shr_fexp prec emax _ e' loc_Exact) as [mrs'' e''].
  destruct (shr_m mrs''); [reflexivity | | exact I].
  destruct (Z.leb e'' (Z.sub emax prec)); reflexivity.
Qed.

Lemma binary_round_sign (prec emax : Z) (sx : bool) (mx : positive) (ex : Z) :
  match binary_round prec emax sx mx ex with
  | S754_nan => True
  | S754_zero s | S754_infinity s | S754_finite s _ _ => s = sx
  end.
Proof.
  unfold binary_round. destruct (shl_align mx ex _) as [mz ez].
  apply binary_round_aux_sign.
Qed.

Lemma sf_unsigned_of_sign (x : spec_float) :
  match x with
  | S754_nan => True
  | S754_zero s | S754_infinity s | S754_finite s _ _ => s = false
  end ->
  sf_unsigned x = true.
Proof. destruct x; cbn; intros H; subst; reflexivity. Qed.

Lemma sf_unsigned_mul_self (x : spec_float) :
  sf_unsigned (SF64mul x x) = true.
Proof.
  destruct x as [s|s| |s m e]; cbn [SF64mul SFmul sf_unsigned];
    try reflexivity; try (destruct s; reflexivity).
  apply sf_unsigned_of_sign.
  pose proof (binary_round_aux_sign prec emax (xorb s s)
                (Zpos (Pos.mul m m)) (Z.add e e) loc_Exact) as H.
  rewrite Bool.xorb_nilpotent in *. exact H.
Qed.

Lemma sf_unsigned_add (x y : spec_float) :
  sf_unsigned x = true -> sf_unsigned y = true ->
  sf_unsigned (SF64add x y) = true.
Proof.
  destruct x as [sx|sx| |sx mx ex], y as [sy|sy| |sy my ey];
    cbn [sf_unsigned]; intros X Y;
    try (apply Bool.negb_true_iff in X); try (apply Bool.negb_true_iff in Y);
    subst; try reflexivity.
  unfold SF64add, SFadd. cbn [cond_Zopp].
  cbn [Z.add]. apply sf_unsigned_of_sign.
  apply (binary_round_sign prec emax false).
Qed.

Lemma sf_unsigned_div (x y : spec_float) :
  sf_unsigned x = true -> sf_unsigned y = true ->
  sf_unsigned (SF64div x y) = true.
Proof.
  destruct x as [sx|sx| |sx mx ex], y as [sy|sy| |sy my ey];
    cbn [sf_unsigned]; intros X Y;
    try (apply Bool.negb_true_iff in X); try (apply Bool.negb_true_iff in Y);
    subst; try reflexivity.
  unfold SF64div, SFdiv.
  destruct (SFdiv_core_binary prec emax (Zpos mx) ex (Zpos my) ey)
    as [[mz ez] lz].
  apply sf_unsigned_of_sign.
  apply (binary_round_aux_sign prec emax false).
Qed.

Lemma sf_unsigned_not_below_zero (x : spec_float) :
  sf_unsigned x = true -> SFltb x (S754_zero false) = false.
Proof.
  destruct x as [s|s| |s m e]; cbn [sf_unsigned]; intros X;
    try (apply Bool.negb_true_iff in X); subst; reflexivity.
Qed.



Lemma Prim2SF_zero : Prim2SF 0 = S754_zero false.
Proof. reflexivity. Qed.

Lemma unsigned_square (x : float) : sf_unsigned (Prim2SF (x * x)) = true.
Proof. rewrite mul_spec. apply sf_unsigned_mul_self. Qed.

Lemma unsigned_sum (l : list float) (acc : float) :
  sf_unsigned (Prim2SF acc) = true ->
  Forall (fun x => sf_unsigned (Prim2SF x) = true) l ->
  sf_unsigned (Prim2SF (fold_left add l acc)) = true.
Proof.
  revert acc. induction l as [|x l IH]; intros acc A F; [exact A|].
  inversion F as [|? ? X F']; subst. cbn [fold_left]. apply IH; [|exact F'].
  rewrite add_spec. apply sf_unsigned_add; assumption.
Qed.

(** The double of a length: not of negative sign. *)
Lemma unsigned_length (n : nat) :
  sf_unsigned (Prim2SF (float_of_Z (Z.of_nat n))) = true.
Proof.
  destruct (Z.of_nat n) as [|p|p] eqn:E; [reflexivity | | lia].
  unfold float_of_Z. rewrite of_uint63_spec.
  pose proof (Uint63.to_Z_bounded (Uint63.of_Z (Zpos p))) as B.
  destruct (Uint63Axioms.to_Z (Uint63.of_Z (Zpos p))) as [|q|q];
    [reflexivity | | lia].
  apply sf_unsigned_of_sign, (binary_round_sign prec emax false).
Qed.

(** On sequences of one length, not empty, the RMSE cell returns: the mean
    of squares is never below zero, so [math.sqrt] does not raise. *)
Lemma rmse_returns (y_actual y_predict : list float) :
  length y_actual = length y_predict ->
  y_actual <> [] ->
  exists mse,
    Binary64.mean_squared_error y_actual y_predict = Ok mse
    /\ Binary64.rmse y_actual y_predict = Ok (PrimFloat.sqrt mse).
Proof.
  intros L N. unfold Binary64.rmse, Binary64.mean_squared_error.
  rewrite <- L, Nat.eqb_refl. cbn [negb].
  destruct (Nat.eqb_spec (length y_actual) 0) as [Z|_];
    [destruct y_actual; [congruence | discriminate]|].
  eexists. split; [reflexivity|]. cbn [bind]. unfold Binary64.sqrt.
  rewrite ltb_spec, Prim2SF_zero, sf_unsigned_not_below_zero; [reflexivity|].
  rewrite div_spec. apply sf_unsigned_div; [|apply unsigned_length].
  apply unsigned_sum; [reflexivity|].
  apply Forall_forall. intros x I. apply in_map_iff in I as [tp [<- _]].
  apply unsigned_square.
Qed.

(** *** Equal operands *)

(** [x - x] is [+0.0] for a finite [x]. *)
Lemma sub_diag (x : float) : Binary64.finite x = true -> x - x = 0.
Proof.
  unfold Binary64.finite. intros F. apply Prim2SF_inj.
  rewrite sub_spec, Prim2SF_zero.
  destruct (Prim2SF x) as [s|s| |s m e]; try discriminate.
  - destruct s; reflexivity.
  - unfold SF64sub, SFsub. rewrite Z.sub_diag. reflexivity.
Qed.



(** A number other than zero: below or above it. *)
Lemma zero_div (y : float) :
  ((y <? 0) || (0 <? y))%bool = true ->
  (y =? 0) = false /\ (0 / y =? 0) = true.
Proof.
  rewrite !ltb_spec, !eqb_spec, div_spec, Prim2SF_zero.
  destruct (Prim2SF y) as [s|s| |s m e]; try discriminate;
    destruct s; intros _; split; reflexivity.
Qed.



(** *** The double of a length *)

Lemma digits2_pos_bound (p : positive) (k : Z) :
  (0 <= k)%Z -> (Zpos p < 2 ^ k)%Z -> (Zpos (digits2_pos p) <= k)%Z.
Proof.
  revert k. induction p as [p IH|p IH|]; intros k K B; cbn [digits2_pos].
  - assert (k <> 0)%Z by (intros ->; cbn in B; lia).
    replace k with (Z.succ (k - 1)) in B by lia.
    rewrite Z.pow_succ_r in B by lia.
    specialize (IH (k - 1)%Z). lia.
  - assert (k <> 0)%Z by (intros ->; cbn in B; lia).
    replace k with (Z.succ (k - 1)) in B by lia.
    rewrite Z.pow_succ_r in B by lia.
    specialize (IH (k - 1)%Z). lia.
  - assert (k <> 0)%Z by (intros ->; cbn in B; lia).
    lia.
Qed.

Lemma digits2_pos_shift (p k : positive) :
  digits2_pos (Pos.iter xO p k) = (digits2_pos p + k)%positive.
Proof.
  induction k as [|k IH] using Pos.peano_ind.
  - cbn. rewrite Pos.add_1_r. reflexivity.
  - rewrite Pos.iter_succ. cbn [digits2_pos]. rewrite IH.
    rewrite Pos.add_succ_r. reflexivity.
Qed.

(** A mantissa of 53 bits with an exponent in range is kept as it is. *)
Lemma binary_round_aux_exact (m : positive) (e : Z) :
  Zpos (digits2_pos m) = 53%Z ->
  (-1074 <= e <= 971)%Z ->
  binary_round_aux prec emax false (Zpos m) e loc_Exact
  = S754_finite false m e.
Proof.
  intros D E.
  assert (shr_fexp prec emax (Zpos m) e loc_Exact
          = ({| shr_m := Zpos m; shr_r := false; shr_s := false |}, e)) as S.
  { unfold shr_fexp. cbn [Zdigits2 shr_record_of_loc]. rewrite D.
    replace (fexp prec emax (53 + e) - e)%Z with 0%Z; [reflexivity|].
    unfold fexp, SpecFloat.emin, prec, emax. lia. }
  unfold binary_round_aux. rewrite S.
  cbn [shr_m loc_of_shr_record round_nearest_even]. rewrite S.
  cbn [shr_m].
  replace (Z.leb e (Z.sub emax prec)) with true; [reflexivity|].
  symmetry. apply Z.leb_le. unfold prec, emax. lia.
Qed.

(** The double of an integer from 1 to below [2^53] is a finite number of
    positive sign. *)
Lemma binary_round_small (p : positive) :
  (Zpos p < 2 ^ 53)%Z ->
  exists m e, binary_round prec emax false p 0 = S754_finite false m e.
Proof.
  intros B. pose proof (digits2_pos_bound p 53 ltac:(lia) B) as D.
  unfold binary_round.
  assert (fexp prec emax (Zpos (digits2_pos p) + 0)
          = (Zpos (digits2_pos p) - 53)%Z) as ->
    by (unfold fexp, SpecFloat.emin, prec, emax; lia).
  unfold shl_align.
  destruct (Zpos (digits2_pos p) - 53 - 0)%Z as [|k|k] eqn:K; [| lia |].
  - exists p, 0%Z. apply binary_round_aux_exact; lia.
  - exists (Pos.iter xO p k), (Zpos (digits2_pos p) - 53)%Z.
    apply binary_round_aux_exact; [|lia].
    rewrite digits2_pos_shift. lia.
Qed.

Lemma length_double_finite (n : nat) :
  (0 < n)%nat -> (Z.of_nat n < 2 ^ 53)%Z ->
  exists m e,
    Prim2SF (float_of_Z (Z.of_nat n)) = S754_finite false m e.
Proof.
  intros P B. destruct (Z.of_nat n) as [|p|p] eqn:E; [lia | | lia].
  unfold float_of_Z. rewrite of_uint63_spec.
  change Uint63Axioms.to_Z with Uint63.to_Z.
  rewrite Uint63.of_Z_spec, Z.mod_small.
  - apply binary_round_small, B.
  - split; [lia|]. apply (Z.lt_trans _ _ _ B). reflexivity.
Qed.

(** [+0.0] divided by the double of such a length is [+0.0]. *)
Lemma zero_div_length (n : nat) :
  (0 < n)%nat -> (Z.of_nat n < 2 ^ 53)%Z ->
  0 / float_of_Z (Z.of_nat n) = 0.
Proof.
  intros P B. destruct (length_double_finite n P B) as (m & e & E).
  apply Prim2SF_inj. rewrite div_spec, E. reflexivity.
Qed.



(** *** The two cells on identical finite sequences *)

Lemma abs_error_identical (x : float) :
  Binary64.finite x = true -> abs_error x x = 0.
Proof.
  intros F. unfold abs_error. cbn [Py.sub Py.ltb Py.mul Py.of_Z binary64].
  rewrite (sub_diag x F). reflexivity.
Qed.

Lemma mape_loop_identical (xs : list float) (st : mape_vars float) :
  Forall (fun x => Binary64.finite x = true) xs ->
  sum_errors st = 0 ->
  sum_errors (fold_left mape_body (Py.zip xs xs) st) = 0.
Proof.
  intros F. revert st. induction F as [|x xs X F IH]; intros st E;
    [exact E|].
  cbn [Py.zip fold_left]. apply IH.
  cbn [mape_body sum_errors Py.add binary64].
  rewrite (abs_error_identical x X), E. reflexivity.
Qed.

Lemma squares_identical (xs : list float) :
  Forall (fun x => Binary64.finite x = true) xs ->
  map (fun tp => (fst tp - snd tp) * (fst tp - snd tp)) (Py.zip xs xs)
  = repeat 0 (length xs).
Proof.
  induction 1 as [|x xs X F IH]; [reflexivity|].
  cbn [Py.zip map fst snd length repeat]. rewrite IH, (sub_diag x X).
  reflexivity.
Qed.

Lemma sum_zeros (n : nat) : fold_left add (repeat 0 n) 0 = 0.
Proof. induction n as [|n IH]; [reflexivity | exact IH]. Qed.

Lemma rmse_identical (xs : list float) :
  xs <> [] ->
  Forall (fun x => Binary64.finite x = true) xs ->
  (Z.of_nat (length xs) < 2 ^ 53)%Z ->
  Binary64.rmse xs xs = Ok 0.
Proof.
  intros N F B. unfold Binary64.rmse, Binary64.mean_squared_error.
  rewrite Nat.eqb_refl. cbn [negb].
  destruct (Nat.eqb_spec (length xs) 0) as [Z|NZ];
    [destruct xs; [congruence | discriminate]|].
  rewrite (squares_identical xs F), sum_zeros, repeat_length.
  rewrite zero_div_length by (assumption || lia). reflexivity.
Qed.


(** With Python floats for predicted values the cell of this section is
    the MAPE cell itself. *)
Lemma mape_python_number (y_actual y_predict : list float) :
  Binary64.mean_abs_percent_error Binary64.python_number y_actual y_predict
  = mean_abs_percent_error y_actual y_predict.
Proof.
  unfold Binary64.mean_abs_percent_error.
  destruct (Py.zip y_actual y_predict); reflexivity.
Qed.

End Doubles.

(** * The claims *)

(** ** MAPE *)

(** C1. For equal-length non-empty sequences, the MAPE that [evaluate]
    returns is the sum over all pairs of [|actual[i] - predicted[i]|]
    divided by the sum of the actual values (ratio of sums); [evaluate] does
    return one whenever that sum of actual values is not zero. *)
Theorem evaluate_mape_ratio_of_sums (actual predicted : list R) :
  length actual = length predicted ->
  actual <> [] ->
  (forall res, evaluate actual predicted = Ok res ->
     mr_mape res
     = Spec.sum_abs_diff actual predicted / Spec.sum_actual actual)
  /\ (Spec.sum_actual actual <> 0 -> returns (evaluate actual predicted)).
Proof.
  intros L N. split.
  - intros res E. apply (evaluate_inv _ _ L N) in E as [_ ->]. reflexivity.
  - intros NZ. eexists. apply (evaluate_ok _ _ L N NZ).
Qed.

Lemma evaluate_mape_ratio_of_sums_witness :
  length [10; 20; 30] = length [12; 18; 33]
  /\ [10; 20; 30] <> []
  /\ (forall res, evaluate [10; 20; 30] [12; 18; 33] = Ok res ->
        mr_mape res
        = Spec.sum_abs_diff [10; 20; 30] [12; 18; 33]
          / Spec.sum_actual [10; 20; 30])
  /\ (Spec.sum_actual [10; 20; 30] <> 0 ->
      returns (evaluate [10; 20; 30] [12; 18; 33])).
Proof.
  split; [reflexivity|]. split; [discriminate|].
  apply evaluate_mape_ratio_of_sums; [reflexivity | discriminate].
Defined.

(** The ratio of sums is not the mean of the per-pair percentage errors:
    on [actual = [1; 3]], [predicted = [2; 3]] the first is [1/4], the
    second [1/2]. *)
Lemma ratio_of_sums_not_mean_of_ratios :
  evaluate [1; 3] [2; 3]
  = Ok {| mr_rmse := Spec.root_mean_sq [1; 3] [2; 3];
          mr_mape := 1 / 4;
          mr_accuracy := 1 - 1 / 4 |}
  /\ Spec.mean_of_ratios [1; 3] [2; 3] = 1 / 2.
Proof.
  split.
  - rewrite evaluate_ok;
      [| reflexivity | discriminate
       | unfold Spec.sum_actual, Spec.item; simpl; lra].
    assert (Spec.ratio_of_sums [1; 3] [2; 3] = 1 / 4) as ->; [|reflexivity].
    unfold Spec.ratio_of_sums, Spec.sum_abs_diff, Spec.sum_actual, Spec.item.
    simpl.
    replace (1 - 2) with (- (1)) by lra. replace (3 - 3) with 0 by lra.
    rewrite Rabs_Ropp, Rabs_R1, Rabs_R0. lra.
  - unfold Spec.mean_of_ratios, Spec.item. simpl.
    replace (1 - 2) with (- (1)) by lra. replace (3 - 3) with 0 by lra.
    rewrite Rabs_Ropp, Rabs_R1, Rabs_R0. lra.
Qed.

(** ** Error conditions *)

(** C2. When the two sequences differ in length, or either is empty,
    [evaluate] fails with InvalidInput and returns no metric result.  The
    check is the one of [sklearn.mean_squared_error], the first call of the
    RMSE cell. *)
Theorem evaluate_invalid_input (actual predicted : list R) :
  length actual <> length predicted \/ actual = [] \/ predicted = [] ->
  evaluate actual predicted = Raise InvalidInput.
Proof.
  intros H. unfold evaluate, rmse.
  rewrite (mean_squared_error_invalid _ _ H). reflexivity.
Qed.

(** In particular with an actual of length 3 and a predicted of length 2. *)
Lemma evaluate_invalid_input_witness :
  (length [1; 2; 3] <> length [1; 2] \/ [1; 2; 3] = [] \/ [1; 2] = [])
  /\ evaluate [1; 2; 3] [1; 2] = Raise InvalidInput.
Proof.
  assert (length [1; 2; 3] <> length [1; 2]
          \/ [1; 2; 3] = [] \/ [1; 2] = []) as H
    by (left; simpl; lia).
  split; [exact H|].
  apply (evaluate_invalid_input [1; 2; 3] [1; 2] H).
Defined.

(** In exact arithmetic, on Python numbers: [actual = [0, 0, 0]], whatever
    the three predicted values. *)
Lemma evaluate_all_zero_actual (p1 p2 p3 : R) :
  evaluate [0; 0; 0] [p1; p2; p3] = Raise ZeroDivisionError.
Proof.
  apply evaluate_zero_division; [reflexivity | discriminate |].
  unfold Spec.sum_actual, Spec.item. simpl. lra.
Qed.

(** ** RMSE and accuracy *)

(** C4. For equal-length non-empty sequences the RMSE cell returns the
    square root of the mean of the squared per-pair differences, which is
    not negative; this is the RMSE of every result [evaluate] returns. *)
Theorem evaluate_rmse_root_mean_square (actual predicted : list R) :
  length actual = length predicted ->
  actual <> [] ->
  rmse actual predicted
  = Ok (sqrt (Spec.big_sum (length actual)
                (fun i => (Spec.item actual i - Spec.item predicted i) ^ 2)
              / INR (length actual)))
  /\ (forall res, evaluate actual predicted = Ok res ->
        mr_rmse res
        = sqrt (Spec.big_sum (length actual)
                  (fun i => (Spec.item actual i - Spec.item predicted i) ^ 2)
                / INR (length actual))
        /\ 0 <= mr_rmse res)
  /\ (Spec.sum_actual actual <> 0 -> returns (evaluate actual predicted)).
Proof.
  intros L N. split; [apply (rmse_ok _ _ L N)|]. split.
  - intros res E. apply (evaluate_inv _ _ L N) in E as [_ ->].
    cbn [mr_rmse]. split; [reflexivity | apply sqrt_pos].
  - intros NZ. eexists. apply (evaluate_ok _ _ L N NZ).
Qed.

Lemma evaluate_rmse_root_mean_square_witness :
  length [5; 7] = length [4; 9]
  /\ [5; 7] <> []
  /\ rmse [5; 7] [4; 9]
     = Ok (sqrt (Spec.big_sum (length [5; 7])
                   (fun i => (Spec.item [5; 7] i - Spec.item [4; 9] i) ^ 2)
                 / INR (length [5; 7])))
  /\ (forall res, evaluate [5; 7] [4; 9] = Ok res ->
        mr_rmse res
        = sqrt (Spec.big_sum (length [5; 7])
                  (fun i => (Spec.item [5; 7] i - Spec.item [4; 9] i) ^ 2)
                / INR (length [5; 7]))
        /\ 0 <= mr_rmse res)
  /\ (Spec.sum_actual [5; 7] <> 0 -> returns (evaluate [5; 7] [4; 9])).
Proof.
  split; [reflexivity|]. split; [discriminate|].
  apply evaluate_rmse_root_mean_square; [reflexivity | discriminate].
Defined.

(** C5. For equal-length non-empty sequences with a non-zero sum of actual
    values, [evaluate] returns an accuracy that is exactly one minus the
    MAPE it returns, the last number the MAPE cell prints; nothing clamps
    it, so it is negative when the MAPE exceeds one. *)
Theorem evaluate_accuracy_one_minus_mape (actual predicted : list R) :
  length actual = length predicted ->
  actual <> [] ->
  Spec.sum_actual actual <> 0 ->
  exists res out,
    evaluate actual predicted = Ok res
    /\ mape_cell actual predicted = Ok out
    /\ numbers out = [mr_mape res; mr_accuracy res]
    /\ mr_accuracy res = 1 - mr_mape res
    /\ (1 < mr_mape res -> mr_accuracy res < 0).
Proof.
  intros L N NZ. eexists. eexists.
  split; [apply (evaluate_ok _ _ L N NZ)|].
  split; [unfold mape_cell; rewrite (mape_ok _ _ L NZ); reflexivity|].
  cbn [mr_mape mr_accuracy].
  split; [reflexivity|]. split; [reflexivity|].
  intros G. lra.
Qed.

Lemma evaluate_accuracy_one_minus_mape_witness :
  length [1] = length [3]
  /\ [1] <> []
  /\ Spec.sum_actual [1] <> 0
  /\ exists res out,
       evaluate [1] [3] = Ok res
       /\ mape_cell [1] [3] = Ok out
       /\ numbers out = [mr_mape res; mr_accuracy res]
       /\ mr_accuracy res = 1 - mr_mape res
       /\ (1 < mr_mape res -> mr_accuracy res < 0).
Proof.
  assert (Spec.sum_actual [1] <> 0) as NZ
    by (unfold Spec.sum_actual, Spec.item; simpl; lra).
  split; [reflexivity|]. split; [discriminate|]. split; [exact NZ|].
  apply (evaluate_accuracy_one_minus_mape [1] [3]);
    [reflexivity | discriminate | exact NZ].
Defined.

(** An accuracy below zero: one actual value [1] predicted as [3] has MAPE
    [2] and accuracy [-1]. *)
Lemma accuracy_below_zero :
  evaluate [1] [3]
  = Ok {| mr_rmse := Spec.root_mean_sq [1] [3];
          mr_mape := 2;
          mr_accuracy := -1 |}.
Proof.
  rewrite evaluate_ok;
    [| reflexivity | discriminate
     | unfold Spec.sum_actual, Spec.item; simpl; lra].
  assert (Spec.ratio_of_sums [1] [3] = 2) as ->.
  { unfold Spec.ratio_of_sums, Spec.sum_abs_diff, Spec.sum_actual, Spec.item.
    simpl. replace (1 - 3) with (- (2)) by lra.
    rewrite Rabs_Ropp, (Rabs_right 2) by lra. lra. }
  do 2 f_equal. lra.
Qed.

(** ** Zero error *)

(** The scenario [actual = [5]], [predicted = [5]]. *)
Lemma evaluate_single_exact :
  evaluate [5] [5] = Ok {| mr_rmse := 0; mr_mape := 0; mr_accuracy := 1 |}.
Proof.
  rewrite evaluate_ok;
    [| reflexivity | discriminate
     | unfold Spec.sum_actual, Spec.item; simpl; lra].
  assert (Spec.identical [5] [5]) as I by (intros i _; reflexivity).
  assert (Spec.sum_actual [5] <> 0) as NZ
    by (unfold Spec.sum_actual, Spec.item; simpl; lra).
  assert ([5] <> []) as N by discriminate.
  rewrite (proj2 (spec_rmse_zero_iff [5] [5] N) I).
  rewrite (proj2 (spec_mape_zero_iff [5] [5] NZ) I).
  do 2 f_equal. lra.
Qed.

(** ** A concrete scenario *)

(** C8. On [actual = [10, 20, 30]] and [predicted = [12, 18, 33]] the
    squared errors are [[4, 4, 9]] with mean [17/3], the absolute errors
    [[2, 2, 3]] with sum [7], the actual values sum to [60], and [evaluate]
    returns rmse [sqrt (17/3)], about 2.3805, mape [7/60], about 0.11667,
    and accuracy [53/60], about 0.88333. *)
Theorem evaluate_scenario :
  map (fun tp => (fst tp - snd tp) ^ 2) (Py.zip [10; 20; 30] [12; 18; 33])
  = [4; 4; 9]
  /\ sklearn.mean_squared_error [10; 20; 30] [12; 18; 33] = Ok (17 / 3)
  /\ map (fun tp => abs_error (fst tp) (snd tp))
         (Py.zip [10; 20; 30] [12; 18; 33])
     = [2; 2; 3]
  /\ mape_loop [10; 20; 30] [12; 18; 33]
     = {| sum_actuals := 60; sum_errors := 7 |}
  /\ evaluate [10; 20; 30] [12; 18; 33]
     = Ok {| mr_rmse := sqrt (17 / 3);
             mr_mape := 7 / 60;
             mr_accuracy := 53 / 60 |}
  /\ Rabs (sqrt (17 / 3) - 23805 / 10000) < 5 / 100000
  /\ Rabs (7 / 60 - 11667 / 100000) < 5 / 1000000
  /\ Rabs (53 / 60 - 88333 / 100000) < 5 / 1000000.
Proof.
  assert (abs_error 10 12 = 2 /\ abs_error 20 18 = 2 /\ abs_error 30 33 = 3)
    as (E1 & E2 & E3).
  { rewrite !abs_error_real. repeat split;
      match goal with |- context [Rlt_dec ?x 0] => destruct (Rlt_dec x 0) end;
      lra. }
  assert (sklearn.mean_squared_error [10; 20; 30] [12; 18; 33] = Ok (17 / 3))
    as M.
  { unfold sklearn.mean_squared_error, sklearn.average, sklearn.sum.
    simpl. f_equal. lra. }
  assert (mape_loop [10; 20; 30] [12; 18; 33]
          = {| sum_actuals := 60; sum_errors := 7 |}) as Loop.
  { unfold mape_loop, mape_init. simpl. rewrite E1, E2, E3. f_equal; lra. }
  split; [simpl; repeat f_equal; lra|].
  split; [exact M|].
  split; [simpl; rewrite E1, E2, E3; reflexivity|].
  split; [exact Loop|].
  split.
  - unfold evaluate, rmse, mean_abs_percent_error.
    rewrite M, Loop. cbn [bind sum_actuals sum_errors].
    unfold Py.sqrt. rewrite truediv_real.
    destruct (Rlt_dec (17 / 3) 0); [lra|].
    destruct (Req_dec_T 60 0); [lra|].
    cbn [bind]. do 2 f_equal. lra.
  - split.
    + assert (238045 / 100000 < sqrt (17 / 3)) as Lo.
      { rewrite <- (sqrt_pow2 (238045 / 100000)) by lra.
        apply sqrt_lt_1; lra. }
      assert (sqrt (17 / 3) < 238055 / 100000) as Hi.
      { rewrite <- (sqrt_pow2 (238055 / 100000)) by lra.
        apply sqrt_lt_1; lra. }
      apply Rabs_def1; lra.
    + split; apply Rabs_def1; lra.
Qed.

(** ** Sequences of different lengths *)

(** C9. When the two sequences have different lengths, both non-empty, and
    the first [min m n] actual values have a non-zero sum, the MAPE cell
    raises nothing: it returns the ratio of sums over the first [min m n]
    pairs, the very value it returns on the two prefixes, whatever follows
    them in the longer sequence. *)
Theorem mape_truncates_to_common_prefix (actual predicted : list R) :
  length actual <> length predicted ->
  actual <> [] ->
  predicted <> [] ->
  Spec.sum_actual (firstn (Spec.common actual predicted) actual) <> 0 ->
  mean_abs_percent_error actual predicted
  = Ok (Spec.ratio_of_sums
          (firstn (Spec.common actual predicted) actual)
          (firstn (Spec.common actual predicted) predicted))
  /\ returns (mape_cell actual predicted)
  /\ mean_abs_percent_error actual predicted
     = mean_abs_percent_error
         (firstn (Spec.common actual predicted) actual)
         (firstn (Spec.common actual predicted) predicted).
Proof.
  intros _ _ _ NZ.
  pose proof (mape_prefix_ok actual predicted NZ) as E.
  split; [exact E|]. split.
  - unfold mape_cell. rewrite E. eexists. reflexivity.
  - rewrite E. symmetry. apply mape_ok; [|exact NZ].
    rewrite !length_firstn. unfold Spec.common. lia.
Qed.

Lemma mape_truncates_to_common_prefix_witness :
  length [10; 20; 30] <> length [12; 18]
  /\ [10; 20; 30] <> []
  /\ [12; 18] <> []
  /\ Spec.sum_actual (firstn (Spec.common [10; 20; 30] [12; 18]) [10; 20; 30])
     <> 0
  /\ mean_abs_percent_error [10; 20; 30] [12; 18]
     = Ok (Spec.ratio_of_sums
             (firstn (Spec.common [10; 20; 30] [12; 18]) [10; 20; 30])
             (firstn (Spec.common [10; 20; 30] [12; 18]) [12; 18]))
  /\ returns (mape_cell [10; 20; 30] [12; 18])
  /\ mean_abs_percent_error [10; 20; 30] [12; 18]
     = mean_abs_percent_error
         (firstn (Spec.common [10; 20; 30] [12; 18]) [10; 20; 30])
         (firstn (Spec.common [10; 20; 30] [12; 18]) [12; 18]).
Proof.
  assert (length [10; 20; 30] <> length [12; 18]) as D by (simpl; lia).
  assert (Spec.sum_actual
            (firstn (Spec.common [10; 20; 30] [12; 18]) [10; 20; 30]) <> 0)
    as NZ by (unfold Spec.sum_actual, Spec.item; simpl; lra).
  split; [exact D|]. split; [discriminate|]. split; [discriminate|].
  split; [exact NZ|].
  apply (mape_truncates_to_common_prefix [10; 20; 30] [12; 18]);
    [exact D | discriminate | discriminate | exact NZ].
Defined.

(** The third actual value plays no part: the cell returns [4/30] on
    [[10, 20, x]] and [[12, 18]], whatever [x] is. *)
Lemma mape_ignores_trailing (x : R) :
  mean_abs_percent_error [10; 20; x] [12; 18] = Ok (4 / 30).
Proof.
  unfold mean_abs_percent_error, mape_loop, mape_init. simpl.
  rewrite !abs_error_Rabs.
  replace (10 - 12) with (- (2)) by lra. replace (20 - 18) with 2 by lra.
  rewrite Rabs_Ropp, (Rabs_right 2) by lra.
  rewrite truediv_real.
  destruct (Req_dec_T (0 + 10 + 20) 0); [lra|]. f_equal. lra.
Qed.

(** ** The branch and the absolute value *)

(** C10. The branch that multiplies a negative difference by [-1] makes the
    per-pair error the absolute value of the difference, for all reals; the
    accumulated [sum_errors] is the sum of the absolute per-pair
    differences; and the cell computes what the same cell written with the
    absolute value computes. *)
Theorem abs_error_branch_is_abs :
  (forall actual_val predict_val : R,
     abs_error actual_val predict_val = Rabs (actual_val - predict_val))
  /\ (forall y_actual y_predict : list R,
        sum_errors (mape_loop y_actual y_predict)
        = sklearn.sum (map (fun ap => Rabs (fst ap - snd ap))
                           (Py.zip y_actual y_predict)))
  /\ (forall y_actual y_predict : list R,
        mean_abs_percent_error y_actual y_predict
        = mean_abs_percent_error_abs y_actual y_predict).
Proof.
  split; [exact abs_error_Rabs|]. split.
  - intros y_actual y_predict. unfold mape_loop.
    rewrite mape_loop_from. cbn [sum_errors mape_init].
    rewrite Rplus_0_l. f_equal. apply map_ext. intros [a p].
    apply abs_error_Rabs.
  - intros y_actual y_predict.
    unfold mean_abs_percent_error, mean_abs_percent_error_abs, mape_loop.
    rewrite mape_loop_abs_from. reflexivity.
Qed.

(** ** The claims that depend on rounding and on the type of the operands *)

Section DoubleClaims.

Import PrimFloat.
#[local] Set Warnings "-inexact-float".




(** C6, on the code: on doubles a squared difference can underflow to
    zero.  For [actual = [1e-200]] and [predicted = [2e-200]], which
    differ, [evaluate] returns an RMSE of [0.0]. *)
Lemma rmse_zero_on_different_sequences :
  PrimFloat.eqb 1e-200 2e-200 = false
  /\ Binary64.rmse [1e-200]%float [2e-200]%float = Ok 0%float
  /\ Binary64.evaluate Binary64.numpy_float64 [1e-200]%float [2e-200]%float
     = Ok {| Binary64.mr_rmse := 0;
             Binary64.mr_mape := 1;
             Binary64.mr_accuracy := 0 |}.
Proof. repeat split; vm_compute; reflexivity. Qed.

(** C6, amended.  The RMSE is zero whenever the two sequences are
    identical element-wise: on doubles, for a non-empty sequence of finite
    values with fewer than [2^53] elements, the RMSE cell returns [0.0], and
    so does every result of [evaluate].  That a zero RMSE is returned for
    identical sequences only holds in exact arithmetic: over the reals, for
    equal-length non-empty sequences, the RMSE is zero if and only if the
    sequences are identical element-wise. *)
Theorem rmse_zero_when_identical
  (xs : list PrimFloat.float) (actual predicted : list R) :
  xs <> [] ->
  Forall (fun x => Binary64.finite x = true) xs ->
  (Z.of_nat (length xs) < 2 ^ 53)%Z ->
  length actual = length predicted ->
  actual <> [] ->
  (Binary64.rmse xs xs = Ok 0%float
   /\ forall t res,
        Binary64.evaluate t xs xs = Ok res ->
        Binary64.mr_rmse res = 0%float)
  /\ (exists r, rmse actual predicted = Ok r
                /\ (r = 0 <-> Spec.identical actual predicted))
  /\ (forall res, evaluate actual predicted = Ok res ->
        (mr_rmse res = 0 <-> Spec.identical actual predicted)).
Proof.
  intros Nx F B L N. pose proof (rmse_identical xs Nx F B) as E.
  split; [split; [exact E|] | split].
  - intros t res. unfold Binary64.evaluate. rewrite E. cbn [bind].
    destruct (Binary64.mean_abs_percent_error t xs xs); [|discriminate].
    cbn [bind]. intros H. injection H as <-. reflexivity.
  - exists (Spec.root_mean_sq actual predicted).
    split; [apply (rmse_ok _ _ L N) | apply (spec_rmse_zero_iff _ _ N)].
  - intros res H. apply (evaluate_inv _ _ L N) in H as [_ ->].
    cbn [mr_rmse]. apply (spec_rmse_zero_iff _ _ N).
Qed.

Lemma rmse_zero_when_identical_witness :
  [5]%float <> []
  /\ Forall (fun x => Binary64.finite x = true) [5]%float
  /\ (Z.of_nat (length [5]%float) < 2 ^ 53)%Z
  /\ length [5] = length [5]
  /\ [5] <> []
  /\ (Binary64.rmse [5]%float [5]%float = Ok 0%float
      /\ forall t res,
           Binary64.evaluate t [5]%float [5]%float = Ok res ->
           Binary64.mr_rmse res = 0%float)
  /\ (exists r, rmse [5] [5] = Ok r /\ (r = 0 <-> Spec.identical [5] [5]))
  /\ (forall res, evaluate [5] [5] = Ok res ->
        (mr_rmse res = 0 <-> Spec.identical [5] [5])).
Proof.
  assert (Forall (fun x => Binary64.finite x = true) [5]%float) as F
    by (repeat constructor).
  assert (Z.of_nat (length [5]%float) < 2 ^ 53)%Z as B by reflexivity.
  split; [discriminate|]. split; [exact F|]. split; [exact B|].
  split; [reflexivity|]. split; [discriminate|].
  apply (rmse_zero_when_identical [5]%float [5] [5]);
    [discriminate | exact F | exact B | reflexivity | discriminate].
Defined.

(** C7, on the code: on doubles the quotient can underflow to zero.  For
    [actual = [1e-300, 1e300]] and [predicted = [2e-300, 1e300]], which
    differ and whose actual values sum to [1e300], [evaluate] returns a MAPE
    of [0.0]. *)
Lemma mape_zero_on_different_sequences :
  PrimFloat.eqb 1e-300 2e-300 = false
  /\ sum_actuals (mape_loop [1e-300; 1e300] [2e-300; 1e300])%float
     = 1e300%float
  /\ sum_errors (mape_loop [1e-300; 1e300] [2e-300; 1e300])%float
     = 1e-300%float
  /\ Binary64.evaluate Binary64.numpy_float64
       [1e-300; 1e300]%float [2e-300; 1e300]%float
     = Ok {| Binary64.mr_rmse := 0;
             Binary64.mr_mape := 0;
             Binary64.mr_accuracy := 1 |}
  /\ Binary64.evaluate Binary64.python_number
       [1e-300; 1e300]%float [2e-300; 1e300]%float
     = Ok {| Binary64.mr_rmse := 0;
             Binary64.mr_mape := 0;
             Binary64.mr_accuracy := 1 |}.
Proof. repeat split; vm_compute; reflexivity. Qed.

(** C7, amended.  The MAPE is zero whenever the two sequences are
    identical element-wise: on doubles, for a sequence of finite values
    whose accumulated sum is a number other than zero, [evaluate] returns a
    MAPE equal to zero, whatever the type of the predicted values.  That a
    zero MAPE is returned for identical sequences only holds in exact
    arithmetic: over the reals, for equal-length non-empty sequences with a
    non-zero sum of actual values, the MAPE is zero if and only if the
    sequences are identical element-wise. *)
Theorem mape_zero_when_identical
  (t : Binary64.scalar_type) (xs : list PrimFloat.float)
  (actual predicted : list R) :
  Forall (fun x => Binary64.finite x = true) xs ->
  (PrimFloat.ltb (sum_actuals (mape_loop xs xs)) 0%float
   || PrimFloat.ltb 0%float (sum_actuals (mape_loop xs xs)))%bool = true ->
  length actual = length predicted ->
  actual <> [] ->
  Spec.sum_actual actual <> 0 ->
  (exists res,
     Binary64.evaluate t xs xs = Ok res
     /\ PrimFloat.eqb (Binary64.mr_mape res) 0%float = true)
  /\ (exists res,
        evaluate actual predicted = Ok res
        /\ (mr_mape res = 0 <-> Spec.identical actual predicted)).
Proof.
  intros F S L N NZ. split.
  - assert (xs <> []) as Nx by (intros ->; vm_compute in S; discriminate).
    destruct (rmse_returns xs xs eq_refl Nx) as (mse & _ & R).
    destruct (zero_div _ S) as [Z Q].
    assert (sum_errors (mape_loop xs xs) = 0%float) as E
      by (apply mape_loop_identical; [exact F | reflexivity]).
    unfold Binary64.evaluate, Binary64.mean_abs_percent_error.
    rewrite R, E. cbn [bind].
    destruct (Binary64.sum_errors_type t (Py.zip xs xs));
      cbn [Binary64.truediv].
    + unfold Py.truediv. cbn [Py.is_zero Py.quot binary64].
      unfold PrimFloat.zero. rewrite Z.
      cbn [bind]. eexists. split; [reflexivity | exact Q].
    + cbn [bind]. eexists. split; [reflexivity | exact Q].
  - eexists. split; [apply (evaluate_ok _ _ L N NZ)|].
    cbn [mr_mape]. apply (spec_mape_zero_iff _ _ NZ).
Qed.

Lemma mape_zero_when_identical_witness :
  Forall (fun x => Binary64.finite x = true) [5]%float
  /\ (PrimFloat.ltb (sum_actuals (mape_loop [5] [5]))%float 0%float
      || PrimFloat.ltb 0%float (sum_actuals (mape_loop [5] [5]))%float)%bool
     = true
  /\ length [5] = length [5]
  /\ [5] <> []
  /\ Spec.sum_actual [5] <> 0
  /\ (exists res,
        Binary64.evaluate Binary64.numpy_float64 [5]%float [5]%float = Ok res
        /\ PrimFloat.eqb (Binary64.mr_mape res) 0%float = true)
  /\ (exists res,
        evaluate [5] [5] = Ok res
        /\ (mr_mape res = 0 <-> Spec.identical [5] [5])).
Proof.
  assert (Forall (fun x => Binary64.finite x = true) [5]%float) as F
    by (repeat constructor).
  assert (Spec.sum_actual [5] <> 0) as NZ
    by (unfold Spec.sum_actual, Spec.item; simpl; lra).
  split; [exact F|]. split; [vm_compute; reflexivity|].
  split; [reflexivity|]. split; [discriminate|]. split; [exact NZ|].
  apply (mape_zero_when_identical Binary64.numpy_float64 [5]%float [5] [5]);
    [exact F | vm_compute; reflexivity | reflexivity | discriminate
     | exact NZ].
Defined.

End DoubleClaims.

(** * Further properties of the notebook *)

(** ** Dictionaries *)

Section DictFacts.

Context {K V : Type}.
Variable key_eq_dec : forall x y : K, {x = y} + {x <> y}.

Local Abbreviation get := (Dict.get key_eq_dec).
Local Abbreviation set := (Dict.set key_eq_dec).
Local Abbreviation keys := (@Dict.keys K V).

Lemma get_set_same (d : list (K * V)) (k : K) (v : V) :
  get (set d k v) k = Some v.
Proof.
  induction d as [|[k' v'] d IH]; simpl.
  - destruct (key_eq_dec k k); [reflexivity | contradiction].
  - destruct (key_eq_dec k k') as [E|N]; simpl.
    + destruct (key_eq_dec k k'); [reflexivity | contradiction].
    + destruct (key_eq_dec k k'); [contradiction | exact IH].
Qed.

Lemma get_set_other (d : list (K * V)) (k k0 : K) (v : V) :
  k0 <> k -> get (set d k v) k0 = get d k0.
Proof.
  intros N. induction d as [|[k' v'] d IH]; simpl.
  - destruct (key_eq_dec k0 k); [contradiction | reflexivity].
  - destruct (key_eq_dec k k') as [E|N']; simpl.
    + subst k'. destruct (key_eq_dec k0 k); [contradiction | reflexivity].
    + destruct (key_eq_dec k0 k'); [reflexivity | exact IH].
Qed.

Lemma get_None (d : list (K * V)) (k : K) :
  get d k = None <-> ~ In k (keys d).
Proof.
  induction d as [|[k' v'] d IH]; simpl.
  - tauto.
  - destruct (key_eq_dec k k') as [E|N].
    + split; [discriminate | intros H; exfalso; apply H; left; auto].
    + rewrite IH. split; [intros H [E|I]; [congruence | auto] | tauto].
Qed.

(** Setting a key the dict does not hold appends it. *)
Lemma set_new (d : list (K * V)) (k : K) (v : V) :
  ~ In k (keys d) -> set d k v = d ++ [(k, v)].
Proof.
  induction d as [|[k' v'] d IH]; simpl; intros N; [reflexivity|].
  destruct (key_eq_dec k k') as [E|_]; [exfalso; apply N; left; auto|].
  rewrite IH by tauto. reflexivity.
Qed.

(** Setting a key the dict holds leaves the keys as they are. *)
Lemma keys_set_old (d : list (K * V)) (k : K) (v : V) :
  In k (keys d) -> keys (set d k v) = keys d.
Proof.
  induction d as [|[k' v'] d IH]; simpl; intros I; [contradiction|].
  destruct (key_eq_dec k k') as [E|N]; [reflexivity|].
  simpl. f_equal. apply IH. destruct I; [congruence | assumption].
Qed.

Lemma keys_set (d : list (K * V)) (k : K) (v : V) :
  keys (set d k v) = if in_dec key_eq_dec k (keys d)
                     then keys d else keys d ++ [k].
Proof.
  destruct (in_dec key_eq_dec k (keys d)) as [I|N].
  - apply keys_set_old, I.
  - rewrite set_new by exact N. unfold Dict.keys. rewrite map_app.
    reflexivity.
Qed.

Lemma NoDup_snoc (l : list K) (k : K) :
  NoDup l -> ~ In k l -> NoDup (l ++ [k]).
Proof.
  intros D N. apply NoDup_app; [exact D | repeat constructor; auto |].
  intros x I [E|[]]. subst. contradiction.
Qed.

Lemma NoDup_keys_set (d : list (K * V)) (k : K) (v : V) :
  NoDup (keys d) -> NoDup (keys (set d k v)).
Proof.
  intros D. rewrite keys_set.
  destruct (in_dec key_eq_dec k (keys d)); [exact D|].
  apply NoDup_snoc; assumption.
Qed.

Lemma length_set (d : list (K * V)) (k : K) (v : V) :
  (length (set d k v) <= S (length d))%nat.
Proof.
  induction d as [|[k' v'] d IH]; simpl; [lia|].
  destruct (key_eq_dec k k'); simpl; lia.
Qed.

(** Looking a key up after a filter on the values. *)
Lemma get_filter (p : V -> bool) (d : list (K * V)) (k : K) :
  NoDup (keys d) ->
  get (filter (fun kv => p (snd kv)) d) k
  = match get d k with
    | Some v => if p v then Some v else None
    | None => None
    end.
Proof.
  induction d as [|[k' v'] d IH]; intros D; [reflexivity|].
  simpl in D. inversion D as [|? ? N D']; subst.
  cbn [filter snd Dict.get].
  destruct (p v') eqn:P; cbn [Dict.get].
  - destruct (key_eq_dec k k'); [rewrite P; reflexivity | apply IH, D'].
  - destruct (key_eq_dec k k') as [E|_]; [|apply IH, D'].
    subst k'. rewrite P. apply get_None.
    intros I. apply N. unfold Dict.keys in *.
    apply in_map_iff in I as [[k0 v0] [E I]]. apply filter_In in I as [I _].
    apply in_map_iff. exists (k0, v0). auto.
Qed.

End DictFacts.

(** ** The run-history cell *)

Section RunHistoryFacts.

Context {value : Type}.
Variable isinstance_float : value -> bool.
Variable int : String.string -> option Z.

Local Abbreviation metrics_of :=
  (fun r : run value => float_metrics isinstance_float (get_metrics r)).
Local Abbreviation iteration :=
  (fun r : run value => iteration_of int (get_properties r)).
Local Abbreviation loop := (metricslist_loop isinstance_float int).

(** The comprehension, from a given dict: the float items are appended in
    order. *)
Lemma float_metrics_from (items acc : list (String.string * value)) :
  NoDup (Dict.keys acc ++ Dict.keys items) ->
  fold_left
    (fun metrics kv =>
       if isinstance_float (snd kv)
       then Dict.set String.string_dec metrics (fst kv) (snd kv)
       else metrics)
    items acc
  = acc ++ filter (fun kv => isinstance_float (snd kv)) items.
Proof.
  revert acc. induction items as [|[k v] items IH]; intros acc D.
  - simpl. rewrite app_nil_r. reflexivity.
  - cbn [fold_left filter fst snd].
    cbn [Dict.keys map fst] in D. fold (Dict.keys items) in D.
    destruct (isinstance_float v).
    + rewrite set_new
        by (intros I; apply NoDup_remove_2 in D; apply D, in_or_app; auto).
      rewrite IH.
      * rewrite <- app_assoc. reflexivity.
      * unfold Dict.keys in *. rewrite map_app, <- app_assoc. exact D.
    + apply IH. apply NoDup_remove_1 in D. exact D.
Qed.

(** X1. Of a run's metrics the comprehension keeps the items whose value is
    a float, in their order and with their values, and nothing else: a
    metric is found in the result exactly when it is a float metric of the
    run. *)
Theorem float_metrics_keeps_floats (items : list (String.string * value)) :
  NoDup (Dict.keys items) ->
  float_metrics isinstance_float items
  = filter (fun kv => isinstance_float (snd kv)) items
  /\ forall k,
       Dict.get String.string_dec (float_metrics isinstance_float items) k
       = match Dict.get String.string_dec items k with
         | Some v => if isinstance_float v then Some v else None
         | None => None
         end.
Proof.
  intros D.
  assert (float_metrics isinstance_float items
          = filter (fun kv => isinstance_float (snd kv)) items) as E
    by (unfold float_metrics; rewrite float_metrics_from; auto).
  split; [exact E|].
  intros k. rewrite E. apply get_filter, D.
Qed.

Lemma loop_app (before after : list (run value))
  (acc : list (Z * list (String.string * value))) :
  loop (before ++ after) acc
  = match loop before acc with
    | inl e => inl e
    | inr m => loop after m
    end.
Proof.
  revert acc. induction before as [|r before IH]; intros acc; [reflexivity|].
  cbn [app metricslist_loop]. destruct (iteration r); [reflexivity|apply IH].
Qed.

(** Runs of other iterations leave the entry of iteration [i] alone. *)
Lemma loop_keeps (i : Z) (after : list (run value))
  (acc ml : list (Z * list (String.string * value))) :
  Forall (fun r => iteration r <> inr i) after ->
  loop after acc = inr ml ->
  Dict.get Z.eq_dec ml i = Dict.get Z.eq_dec acc i.
Proof.
  revert acc. induction after as [|r after IH]; intros acc F E.
  - cbn in E. congruence.
  - inversion F as [|? ? N F']; subst. cbn [metricslist_loop] in E.
    destruct (iteration r) as [e|j] eqn:J; [discriminate|].
    rewrite (IH _ F' E). apply get_set_other. congruence.
Qed.

(** X2. When the cell returns, the entry of an iteration holds the float
    metrics of the last child run with that iteration: a later run of the
    same iteration replaces an earlier one. *)
Theorem metricslist_last_run_wins
  (before after : list (run value)) (r : run value) (i : Z)
  (ml : list (Z * list (String.string * value))) :
  metricslist isinstance_float int (before ++ r :: after) = inr ml ->
  iteration_of int (get_properties r) = inr i ->
  Forall (fun r' => iteration_of int (get_properties r') <> inr i) after ->
  Dict.get Z.eq_dec ml i
  = Some (float_metrics isinstance_float (get_metrics r)).
Proof.
  unfold metricslist. intros E I F. rewrite loop_app in E.
  destruct (loop before []) as [e|m]; [discriminate|].
  cbn [metricslist_loop] in E. rewrite I in E.
  rewrite (loop_keeps i after _ ml F E). apply get_set_same.
Qed.

(** The loop on runs that all have an iteration number. *)
Lemma loop_returns (children : list (run value)) (its : list Z)
  (acc : list (Z * list (String.string * value))) :
  Forall2 (fun r i => iteration r = inr i) children its ->
  NoDup (Dict.keys acc) ->
  exists ml,
    loop children acc = inr ml
    /\ NoDup (Dict.keys ml)
    /\ (forall i, In i (Dict.keys ml) <-> In i (Dict.keys acc) \/ In i its)
    /\ (length ml <= length acc + length children)%nat
    /\ (NoDup (Dict.keys acc ++ its) -> Dict.keys ml = Dict.keys acc ++ its).
Proof.
  intros F. revert acc.
  induction F as [|r i children its I F IH]; intros acc D.
  - exists acc. cbn. rewrite app_nil_r.
    repeat split; auto; try tauto; lia.
  - cbn [metricslist_loop]. rewrite I.
    destruct (IH (Dict.set Z.eq_dec acc i (metrics_of r)))
      as (ml & E & D' & In' & L & Ks); [apply NoDup_keys_set, D|].
    exists ml. split; [exact E|]. split; [exact D'|].
    rewrite keys_set in In', Ks.
    pose proof (length_set Z.eq_dec acc i (metrics_of r)) as LS.
    split; [|split].
    + intros j. rewrite In'. cbn [In].
      destruct (in_dec Z.eq_dec i (Dict.keys acc)) as [Ia|Na].
      * split; [tauto|]. intros [?|[<-|?]]; auto.
      * rewrite in_app_iff. cbn [In]. tauto.
    + cbn [length]. lia.
    + intros Dall.
      destruct (in_dec Z.eq_dec i (Dict.keys acc)) as [Ia|Na].
      * exfalso. apply NoDup_remove_2 in Dall. apply Dall, in_or_app; auto.
      * rewrite Ks; [rewrite <- app_assoc; reflexivity|].
        rewrite <- app_assoc. exact Dall.
Qed.

(** X3. When every child run has an integer iteration property the cell
    returns a dict with one entry per iteration number that occurs, none
    twice and no other, so with at most as many entries as there are child
    runs; when the iteration numbers are pairwise distinct the keys are
    these numbers in the order of the runs. *)
Theorem metricslist_keys (children : list (run value)) (its : list Z) :
  Forall2 (fun r i => iteration_of int (get_properties r) = inr i)
    children its ->
  exists ml,
    metricslist isinstance_float int children = inr ml
    /\ NoDup (Dict.keys ml)
    /\ (forall i, In i (Dict.keys ml) <-> In i its)
    /\ (length ml <= length children)%nat
    /\ (NoDup its -> Dict.keys ml = its).
Proof.
  intros F.
  destruct (loop_returns children its [] F) as (ml & E & D & I & L & Ks);
    [constructor|].
  exists ml. split; [exact E|]. split; [exact D|].
  split; [|split; [exact L | exact Ks]].
  intros i. rewrite I. cbn. tauto.
Qed.

(** X4. The first child run whose iteration property is missing or is not
    an integer ends the cell with its exception: no dict is returned,
    whatever the runs after it. *)
Theorem metricslist_first_failure
  (before after : list (run value)) (r : run value) (e : run_error) :
  Forall
    (fun r' => exists i, iteration_of int (get_properties r') = inr i)
    before ->
  iteration_of int (get_properties r) = inl e ->
  metricslist isinstance_float int (before ++ r :: after) = inl e.
Proof.
  unfold metricslist. intros F I. rewrite loop_app.
  assert (exists its, Forall2 (fun r i => iteration r = inr i) before its)
    as [its F2].
  { clear I. induction F as [|r' before [i I'] F IH].
    - exists []. constructor.
    - destruct IH as [its F2]. exists (i :: its). constructor; assumption. }
  destruct (loop_returns before its [] F2) as (m & -> & _); [constructor|].
  cbn [metricslist_loop]. rewrite I. reflexivity.
Qed.

(** X5. The cell returns a dict exactly when every child run has an integer
    iteration property. *)
Theorem metricslist_returns_iff (children : list (run value)) :
  (exists ml, metricslist isinstance_float int children = inr ml)
  <-> Forall
        (fun r => exists i, iteration_of int (get_properties r) = inr i)
        children.
Proof.
  unfold metricslist. generalize (@nil (Z * list (String.string * value))).
  induction children as [|r children IH]; intros acc.
  - split; [constructor | intros _; exists acc; reflexivity].
  - cbn [metricslist_loop]. split.
    + intros [ml E]. destruct (iteration r) as [e|i] eqn:I; [discriminate|].
      constructor; [exists i; exact I|].
      apply (IH (Dict.set Z.eq_dec acc i (metrics_of r))). exists ml. exact E.
    + intros F. inversion F as [|? ? [i I] F']; subst. rewrite I.
      apply IH, F'.
Qed.

End RunHistoryFacts.

(** The cell on the sample runs. *)
Section RunHistorySample.

Import Sample.

Example run_history_sample :
  metricslist is_float decimal [run_0; run_1; run_0_again]
  = inr [(0%Z, float_metrics is_float (get_metrics run_0_again));
         (1%Z, float_metrics is_float (get_metrics run_1))]
  /\ metricslist is_float decimal [run_0; run_unnumbered; run_1]
     = inl (KeyError Key.iteration).
Proof. split; vm_compute; reflexivity. Qed.

Lemma float_metrics_keeps_floats_witness :
  NoDup (Dict.keys (get_metrics run_0))
  /\ float_metrics is_float (get_metrics run_0)
     = filter (fun kv => is_float (snd kv)) (get_metrics run_0)
  /\ forall k,
       Dict.get String.string_dec
         (float_metrics is_float (get_metrics run_0)) k
       = match Dict.get String.string_dec (get_metrics run_0) k with
         | Some v => if is_float v then Some v else None
         | None => None
         end.
Proof.
  assert (NoDup (Dict.keys (get_metrics run_0))) as D.
  { repeat constructor; simpl; intuition discriminate. }
  split; [exact D|].
  apply (float_metrics_keeps_floats is_float (get_metrics run_0) D).
Defined.

Lemma metricslist_last_run_wins_witness :
  metricslist is_float decimal ([run_0] ++ run_0_again :: [run_1])
  = inr [(0%Z, float_metrics is_float (get_metrics run_0_again));
         (1%Z, float_metrics is_float (get_metrics run_1))]
  /\ iteration_of decimal (get_properties run_0_again) = inr 0%Z
  /\ Forall
       (fun r' : run metric =>
          iteration_of decimal (get_properties r') <> inr 0%Z) [run_1]
  /\ Dict.get Z.eq_dec
       [(0%Z, float_metrics is_float (get_metrics run_0_again));
        (1%Z, float_metrics is_float (get_metrics run_1))] 0%Z
     = Some (float_metrics is_float (get_metrics run_0_again)).
Proof.
  assert (Forall
            (fun r' : run metric =>
               iteration_of decimal (get_properties r') <> inr 0%Z) [run_1])
    as F by (repeat constructor; vm_compute; discriminate).
  split; [vm_compute; reflexivity|].
  split; [vm_compute; reflexivity|].
  split; [exact F|].
  apply (metricslist_last_run_wins is_float decimal
           [run_0] [run_1] run_0_again 0%Z);
    [vm_compute; reflexivity | vm_compute; reflexivity | exact F].
Defined.

Lemma metricslist_keys_witness :
  Forall2 (fun r i => iteration_of decimal (get_properties r) = inr i)
    [run_0; run_1; run_0_again] [0%Z; 1%Z; 0%Z]
  /\ exists ml,
       metricslist is_float decimal [run_0; run_1; run_0_again] = inr ml
       /\ NoDup (Dict.keys ml)
       /\ (forall i, In i (Dict.keys ml) <-> In i [0%Z; 1%Z; 0%Z])
       /\ (Datatypes.length ml
           <= Datatypes.length [run_0; run_1; run_0_again])%nat
       /\ (NoDup [0%Z; 1%Z; 0%Z] -> Dict.keys ml = [0%Z; 1%Z; 0%Z]).
Proof.
  assert (Forall2 (fun r i => iteration_of decimal (get_properties r) = inr i)
            [run_0; run_1; run_0_again] [0%Z; 1%Z; 0%Z]) as F
    by (repeat constructor).
  split; [exact F|].
  apply (metricslist_keys is_float decimal _ _ F).
Defined.

Lemma metricslist_first_failure_witness :
  Forall
    (fun r' => exists i, iteration_of decimal (get_properties r') = inr i)
    [run_0]
  /\ iteration_of decimal (get_properties run_unnumbered)
     = inl (KeyError Key.iteration)
  /\ metricslist is_float decimal ([run_0] ++ run_unnumbered :: [run_1])
     = inl (KeyError Key.iteration).
Proof.
  assert (Forall
            (fun r' =>
               exists i, iteration_of decimal (get_properties r') = inr i)
            [run_0]) as F
    by (repeat constructor; exists 0%Z; reflexivity).
  split; [exact F|]. split; [reflexivity|].
  apply (metricslist_first_failure is_float decimal
           [run_0] [run_1] run_unnumbered (KeyError Key.iteration) F).
  reflexivity.
Defined.

End RunHistorySample.

(** ** The chart cell *)

Section ChartFacts.

Context {A : Type}.

(** X6. The comprehension raises [IndexError] exactly when some row has
    fewer than five columns; otherwise it yields one value per row, in
    order: the fifth column of the row. *)
Theorem distance_vals_fifth_column (rows : list (list A)) :
  (distance_vals rows = None
   <-> Exists (fun x => (length x < 5)%nat) rows)
  /\ (forall ds,
        distance_vals rows = Some ds
        <-> Forall2 (fun x d => nth_error x 4 = Some d) rows ds).
Proof.
  induction rows as [|x rows [IHn IHs]].
  - split.
    + split; [discriminate | intros E; inversion E].
    + intros ds. split.
      * intros E. injection E as <-. constructor.
      * intros F. inversion F. reflexivity.
  - cbn [distance_vals]. destruct (nth_error x 4) as [d|] eqn:N.
    + assert (~ (length x < 5)%nat) as L.
      { assert (nth_error x 4 <> None) as S by congruence.
        apply nth_error_Some in S. lia. }
      split.
      * destruct (distance_vals rows) as [ds|].
        -- split; [discriminate|]. intros E. exfalso.
           inversion E as [? ? H|? ? H]; subst; [contradiction|].
           apply IHn in H. discriminate.
        -- split; [|reflexivity]. intros _. right. apply IHn. reflexivity.
      * intros ds'. destruct (distance_vals rows) as [ds|].
        -- split.
           ++ intros E. injection E as <-.
              constructor; [exact N | apply IHs; reflexivity].
           ++ intros F. inversion F as [|? d' ? ds0 Hd F']; subst.
              apply IHs in F'. congruence.
        -- split; [discriminate|].
           intros F. inversion F as [|? d' ? ds0 Hd F']; subst.
           apply IHs in F'. discriminate.
    + split.
      * split; [|reflexivity]. intros _. left.
        apply nth_error_None in N. lia.
      * intros ds. split; [discriminate|].
        intros F. inversion F; subst. congruence.
Qed.

(** X7. When [x_test] and the plotted values have the same number of rows
    and the comprehension returns, the two series of a [scatter] call have
    the same length, the smaller of 100 and the number of rows, and the
    slice of the values is their first elements. *)
Theorem scatter_series_same_length {B : Type}
  (rows : list (list A)) (y ys : list B) (xs : list A) :
  length rows = length y ->
  scatter_series rows y = Some (xs, ys) ->
  length xs = length ys
  /\ length xs = Nat.min 100 (length rows)
  /\ ys = firstn (length ys) y.
Proof.
  intros L. unfold scatter_series.
  destruct (distance_vals rows) as [ds|] eqn:E; [|discriminate].
  intros S. injection S as <- <-.
  apply (proj2 (distance_vals_fifth_column rows) ds) in E.
  apply Forall2_length in E.
  unfold first_100. rewrite !length_firstn, <- E, <- L.
  split; [reflexivity|]. split; [reflexivity|].
  rewrite L.
  destruct (Nat.min_spec 100 (length y)) as [[_ ->]|[H ->]];
    [reflexivity|].
  rewrite firstn_all, firstn_all2 by lia. reflexivity.
Qed.

End ChartFacts.

Lemma scatter_series_same_length_witness :
  length [[1; 2; 3; 4; 5]; [6; 7; 8; 9; 10]]%Z = length [20; 30]%Z
  /\ scatter_series [[1; 2; 3; 4; 5]; [6; 7; 8; 9; 10]]%Z [20; 30]%Z
     = Some ([5; 10]%Z, [20; 30]%Z)
  /\ length [5; 10]%Z = length [20; 30]%Z
  /\ length [5; 10]%Z
     = Nat.min 100 (length [[1; 2; 3; 4; 5]; [6; 7; 8; 9; 10]]%Z)
  /\ [20; 30]%Z = firstn (length [20; 30]%Z) [20; 30]%Z.
Proof.
  split; [reflexivity|]. split; [reflexivity|].
  apply (scatter_series_same_length
           [[1; 2; 3; 4; 5]; [6; 7; 8; 9; 10]]%Z
           [20; 30]%Z [20; 30]%Z [5; 10]%Z);
    reflexivity.
Defined.

(** ** More on the MAPE cell *)

Section MapeFacts.

Import Spec.




(** X9. When either sequence is empty the loop body never runs and the
    division of the two initial zeros raises [ZeroDivisionError]. *)
Theorem mape_empty_input (y_actual y_predict : list R) :
  y_actual = [] \/ y_predict = [] ->
  mean_abs_percent_error y_actual y_predict = Raise ZeroDivisionError.
Proof.
  intros H.
  assert (Py.zip y_actual y_predict = []) as Z
    by (destruct H; subst; [|destruct y_actual]; reflexivity).
  unfold mean_abs_percent_error, mape_loop. rewrite Z.
  cbn [fold_left mape_init sum_actuals sum_errors]. rewrite truediv_real.
  destruct (Req_dec_T (Py.of_Z 0) 0) as [_|N]; [reflexivity|].
  exfalso. apply N. reflexivity.
Qed.




(** X13. Changing the unit of both sequences by a positive factor changes
    neither the value the cell returns nor whether it raises. *)
Theorem mape_scale_invariant (c : R) (y_actual y_predict : list R) :
  0 < c ->
  mean_abs_percent_error (map (Rmult c) y_actual) (map (Rmult c) y_predict)
  = mean_abs_percent_error y_actual y_predict.
Proof.
  intros C. unfold mean_abs_percent_error, mape_loop.
  rewrite zip_map, !mape_loop_from. cbn [sum_actuals sum_errors mape_init].
  rewrite !map_map. cbn [fst snd].
  set (l := Py.zip y_actual y_predict).
  assert (sklearn.sum (map (fun x => c * fst x) l)
          = c * sklearn.sum (map fst l)) as ->.
  { induction l as [|x l IH]; simpl; [lra|].
    unfold sklearn.sum in *. simpl. rewrite IH. lra. }
  assert (sklearn.sum
            (map (fun x => abs_error (c * fst x) (c * snd x)) l)
          = c * sklearn.sum (map (fun ap => abs_error (fst ap) (snd ap)) l))
    as ->.
  { induction l as [|x l IH]; simpl; [lra|].
    unfold sklearn.sum in *. simpl. rewrite IH.
    rewrite !abs_error_Rabs, <- Rmult_minus_distr_l, Rabs_mult.
    rewrite (Rabs_right c) by lra. lra. }
  rewrite !truediv_real, !Rplus_0_l.
  set (A := sklearn.sum (map fst l)).
  set (E := sklearn.sum (map (fun ap => abs_error (fst ap) (snd ap)) l)).
  destruct (Req_dec_T (c * A) 0) as [Z|NZ];
    destruct (Req_dec_T A 0) as [Z'|NZ'].
  - reflexivity.
  - exfalso. apply Rmult_integral in Z. destruct Z; lra.
  - exfalso. apply NZ. rewrite Z'. lra.
  - f_equal. field. split; lra.
Qed.

End MapeFacts.

(** The MAPE cell on small inputs. *)


Lemma mape_empty_input_witness :
  (([] : list R) = [] \/ [1; 2] = [])
  /\ mean_abs_percent_error [] [1; 2] = Raise ZeroDivisionError.
Proof.
  assert (([] : list R) = [] \/ [1; 2] = []) as H by (left; reflexivity).
  split; [exact H|]. apply (mape_empty_input [] [1; 2] H).
Defined.




Lemma mape_scale_invariant_witness :
  0 < 100
  /\ mean_abs_percent_error (map (Rmult 100) [1]) (map (Rmult 100) [3])
     = mean_abs_percent_error [1] [3].
Proof.
  assert (0 < 100) as C by lra.
  split; [exact C|]. apply (mape_scale_invariant 100 [1] [3] C).
Defined.
